(** * Agent402 dashboard: the fetch-and-derive pipeline of the frontend

    A shallow embedding of the two React pages of the repository,
    [frontend/src/app/leaderboard/page.tsx] (component [LeaderboardPage]
    and its helper [ScoreBar]) and [frontend/src/app/page.tsx] (component
    [Home]), followed by the properties of the listing fetcher, of the
    query construction and of the derived percentages and bars.

    Conventions of the embedding.
    - A JavaScript string is a [string]: the UTF-8 bytes of the text.
    - A JavaScript number is a [JsNum.t]: an exact rational, or one of the
      three non-finite values a division by zero can produce.  The
      operations of [JsNum] are exact; those of [Double] round to the
      nearest IEEE double, as the pages do.
    - A promise chain is a computation in the monad [Promise.t]: it reads
      and writes the component state and settles fulfilled or rejected.
    - A JSON object used as a map is an association list in the object's
      own key order, looked up by key. *)

From Stdlib Require Import String Ascii List Bool ZArith NArith QArith Qround Qabs.
From Stdlib Require Import DecimalString DecimalN Lia Lqa Qpower Permutation.
Import ListNotations.

Local Open Scope string_scope.
Local Open Scope Z_scope.

(** ** JSON values, as [Response.json()] delivers them *)

#[warnings="-register-all"]
Inductive Json : Type :=
| JNull
| JBool (b : bool)
| JNum (n : Q)
| JStr (s : string)
| JArr (items : list Json)
| JObj (fields : list (string * Json)).

(** [Array.isArray(data)] *)
Definition isArray (data : Json) : bool :=
  match data with
  | JArr _ => true
  | _ => false
  end.

(** ** The outcome of one [fetch] call *)

(** A response carries its status code; [body] is what [r.json()] parses
    out of it, [None] when the body is not JSON at all and [r.json()]
    rejects. *)
Record Response : Type := mkResponse {
  status : Z;
  body : option Json
}.

(** [r.ok]: the status is in the range 200 to 299. *)
Definition ok (r : Response) : bool :=
  (200 <=? status r) && (status r <=? 299).

(** [fetch] either rejects (network failure) or fulfils with a response. *)
Inductive FetchOutcome : Type :=
| NetworkError
| Responded (r : Response).

(** ** Component state of [LeaderboardPage]

    The [useState] slots that the listing fetcher reads or writes.  The
    slot [stats] is written by the first effect only and read by the
    renderers below, which take it as an argument. *)

Record PageState : Type := mkPage {
  agents : list Json;
  loading : bool;
  category : string;
  chain : string;
  error : string
}.

(** The initial values given to [useState]. *)
Definition initial_page : PageState :=
  {| agents := []; loading := true; category := ""; chain := ""; error := "" |}.

Definition with_agents (v : list Json) (st : PageState) : PageState :=
  {| agents := v; loading := loading st; category := category st;
     chain := chain st; error := error st |}.

Definition with_loading (v : bool) (st : PageState) : PageState :=
  {| agents := agents st; loading := v; category := category st;
     chain := chain st; error := error st |}.

Definition with_category (v : string) (st : PageState) : PageState :=
  {| agents := agents st; loading := loading st; category := v;
     chain := chain st; error := error st |}.

Definition with_chain (v : string) (st : PageState) : PageState :=
  {| agents := agents st; loading := loading st; category := category st;
     chain := v; error := error st |}.

Definition with_error (v : string) (st : PageState) : PageState :=
  {| agents := agents st; loading := loading st; category := category st;
     chain := chain st; error := v |}.

(** ** Promise chains over the component state *)

Module Promise.

Inductive Settled (A : Type) : Type :=
| Fulfilled (a : A)
| Rejected.
Arguments Fulfilled {A} a.
Arguments Rejected {A}.

(** A chain runs on the current state and leaves a new state and the
    way it settled.  Rejection reasons are dropped: no handler of the
    pages looks at them. *)
Definition t (A : Type) : Type := PageState -> PageState * Settled A.

Definition resolve {A} (a : A) : t A := fun st => (st, Fulfilled a).

Definition reject {A} : t A := fun st => (st, Rejected).

(** [p.then(f)] *)
Definition then_ {A B} (p : t A) (f : A -> t B) : t B :=
  fun st =>
    match p st with
    | (st', Fulfilled a) => f a st'
    | (st', Rejected) => (st', Rejected)
    end.

(** [p.catch(h)], for a handler that ignores the reason *)
Definition catch_ {A} (p : t A) (h : t A) : t A :=
  fun st =>
    match p st with
    | (st', Fulfilled a) => (st', Fulfilled a)
    | (st', Rejected) => h st'
    end.

(** [p.finally(h)]: [h] runs either way and [p]'s settlement is kept,
    unless [h] itself rejects. *)
Definition finally_ {A} (p : t A) (h : t unit) : t A :=
  fun st =>
    match p st with
    | (st', r) =>
        match h st' with
        | (st'', Fulfilled _) => (st'', r)
        | (st'', Rejected) => (st'', Rejected)
        end
    end.

(** A state setter returned by [useState], called inside a handler. *)
Definition set (f : PageState -> PageState) : t unit :=
  fun st => (f st, Fulfilled tt).

Definition exec {A} (p : t A) (st : PageState) : PageState := fst (p st).
Definition settled {A} (p : t A) (st : PageState) : Settled A := snd (p st).

Module Notations.
Notation "x <- p ;; k" := (then_ p (fun x => k))
  (at level 61, p at next level, right associativity).
Notation "p ;;; k" := (then_ p (fun _ => k))
  (at level 61, right associativity).
End Notations.

End Promise.

Import Promise.Notations.

Definition setAgents (v : list Json) : Promise.t unit := Promise.set (with_agents v).
Definition setLoading (v : bool) : Promise.t unit := Promise.set (with_loading v).
Definition setError (v : string) : Promise.t unit := Promise.set (with_error v).

(** [fetch(url)], once the network has decided its outcome *)
Definition fetch_settle (o : FetchOutcome) : Promise.t Response :=
  match o with
  | NetworkError => Promise.reject
  | Responded r => Promise.resolve r
  end.

(** [r.json()] *)
Definition json (r : Response) : Promise.t Json :=
  match body r with
  | Some j => Promise.resolve j
  | None => Promise.reject
  end.

(** ** The listing fetcher: the second effect of [LeaderboardPage] *)

(** The two messages the effect can put in [error]. *)
Definition PAID_ENDPOINT : string := "Paid endpoint — use x402 SDK".
Definition FAILED_TO_LOAD : string := "Failed to load".

(** First [.then]: the response handler. *)
Definition on_response (r : Response) : Promise.t Json :=
  if status r =? 402 then
    setError PAID_ENDPOINT ;;; Promise.resolve (JArr [])
  else if ok r then json r
  else Promise.resolve (JArr []).

(** Second [.then]: the data handler. *)
Definition on_data (data : Json) : Promise.t unit :=
  match data with
  | JArr rows => setAgents rows
  | _ => Promise.resolve tt
  end.

(** The whole chain hung on one [fetch], run when the fetch settles:
    [.then(..).then(..).catch(() => setError("Failed to load"))
     .finally(() => setLoading(false))]. *)
Definition listing_chain (o : FetchOutcome) : Promise.t unit :=
  Promise.finally_
    (Promise.catch_
       (r <- fetch_settle o ;; data <- on_response r ;; on_data data)
       (setError FAILED_TO_LOAD))
    (setLoading false).

(** ** Query construction: [URLSearchParams] *)

Module URLSearchParams.

(** The name-value pairs, in order. *)
Definition t : Type := list (string * string).

Definition has (name : string) (p : t) : bool :=
  existsb (fun kv => String.eqb (fst kv) name) p.

Fixpoint get (name : string) (p : t) : option string :=
  match p with
  | [] => None
  | (k, v) :: p' => if String.eqb k name then Some v else get name p'
  end.

(** The value of the first pair called [name] becomes [value] and the
    other pairs of that name go. *)
Fixpoint set_first (name value : string) (p : t) : t :=
  match p with
  | [] => []
  | (k, v) :: p' =>
      if String.eqb k name
      then (k, value) :: filter (fun kv => negb (String.eqb (fst kv) name)) p'
      else (k, v) :: set_first name value p'
  end.

(** [params.set(name, value)]: replace when present, append otherwise. *)
Definition set (name value : string) (p : t) : t :=
  if has name p then set_first name value p else (p ++ [(name, value)])%list.

(** The bytes that the [application/x-www-form-urlencoded] serializer
    leaves as they are: ASCII letters and digits, and [* - . _]. *)
Definition unreserved (c : ascii) : bool :=
  let n := nat_of_ascii c in
  ((48 <=? n) && (n <=? 57) || (65 <=? n) && (n <=? 90)
   || (97 <=? n) && (n <=? 122)
   || (n =? 42) || (n =? 45) || (n =? 46) || (n =? 95))%nat.

Definition hex_digit (n : nat) : ascii :=
  match String.get n "0123456789ABCDEF" with
  | Some c => c
  | None => "0"%char
  end.

Definition percent_encode (c : ascii) : string :=
  let n := nat_of_ascii c in
  String "%" (String (hex_digit (n / 16)) (String (hex_digit (n mod 16)) "")).

(** One name or value, serialized: a space becomes [+], an unreserved
    byte stays, any other byte is percent-encoded. *)
Fixpoint serialize_bytes (s : string) : string :=
  match s with
  | EmptyString => ""
  | String c s' =>
      if Ascii.eqb c " " then String "+" (serialize_bytes s')
      else if unreserved c then String c (serialize_bytes s')
      else percent_encode c ++ serialize_bytes s'
  end.

(** [params.toString()], which the template literal calls. *)
Fixpoint toString (p : t) : string :=
  match p with
  | [] => ""
  | (k, v) :: p' =>
      let pair := serialize_bytes k ++ "=" ++ serialize_bytes v in
      match p' with
      | [] => pair
      | _ => pair ++ "&" ++ toString p'
      end
  end.

End URLSearchParams.

(** [if (s)] on a string: the empty string is the only falsy one. *)
Definition truthy (s : string) : bool := negb (String.eqb s "").

(** The parameters the effect builds from the two filter slots. *)
Definition listing_params (category chain : string) : URLSearchParams.t :=
  let params := [("limit", "50")] in
  let params :=
    if truthy category then URLSearchParams.set "category" category params
    else params in
  if truthy chain then URLSearchParams.set "chain" chain params else params.

(** The URL handed to [fetch]; [API] is the configured base URL. *)
Definition listing_url (API category chain : string) : string :=
  API ++ "/api/v1/agents/top?"
      ++ URLSearchParams.toString (listing_params category chain).

(** ** The page in its environment: requests in flight *)

Record Request : Type := mkRequest {
  req_id : nat;
  req_url : string
}.

(** [issued] logs every listing request ever sent, oldest first;
    [inflight] holds those whose fetch has not settled yet. *)
Record World : Type := mkWorld {
  page : PageState;
  issued : list Request;
  inflight : list Request
}.

Definition pending (id : nat) (w : World) : bool :=
  existsb (fun rq => Nat.eqb (req_id rq) id) (inflight w).

Definition remove_request (id : nat) (l : list Request) : list Request :=
  filter (fun rq => negb (Nat.eqb (req_id rq) id)) l.

Section Listing.

(** [process.env.NEXT_PUBLIC_API_URL || "https://api.agent402.io"] *)
Variable API : string.

(** The body of the effect, up to the [fetch] call: [setLoading(true)],
    build the parameters, send the request.  Nothing is cancelled and
    no clean-up function is returned. *)
Definition listing_effect (w : World) : World :=
  let st := with_loading true (page w) in
  let rq := {| req_id := length (issued w);
               req_url := listing_url API (category st) (chain st) |} in
  {| page := st;
     issued := (issued w ++ [rq])%list;
     inflight := (inflight w ++ [rq])%list |}.

(** What can happen to the page. *)
Inductive Event : Type :=
| Activate
| ClickCategory (slug : string)
| ClickChain (slug : string)
| Settle (id : nat) (o : FetchOutcome).

Definition set_page (st : PageState) (w : World) : World :=
  {| page := st; issued := issued w; inflight := inflight w |}.

(** One event.
    - [Activate]: the component mounts and the effect runs.
    - A click calls [setCategory] or [setChain]; React re-renders and
      re-runs the effect only when a dependency in [[category, chain]]
      changed.
    - [Settle id o]: the fetch of request [id] settles with [o] and its
      chain runs; a request that is not in flight cannot settle.  The
      handlers of one chain write the state in one go: the response
      handler writes only on a 402, where the handlers after it follow as
      microtasks, and otherwise all writes come once [r.json()] has
      settled. *)
Definition step (w : World) (e : Event) : World :=
  match e with
  | Activate => listing_effect w
  | ClickCategory slug =>
      if String.eqb slug (category (page w)) then w
      else listing_effect (set_page (with_category slug (page w)) w)
  | ClickChain slug =>
      if String.eqb slug (chain (page w)) then w
      else listing_effect (set_page (with_chain slug (page w)) w)
  | Settle id o =>
      if pending id w then
        {| page := Promise.exec (listing_chain o) (page w);
           issued := issued w;
           inflight := remove_request id (inflight w) |}
      else w
  end.

Definition run (w : World) (es : list Event) : World := fold_left step es w.

(** The world before the component mounts. *)
Definition unmounted : World :=
  {| page := initial_page; issued := []; inflight := [] |}.

End Listing.

(** ** What [LeaderboardPage] renders from the listing state *)

Inductive TableBody : Type :=
| LoadingRow
| NoAgentsRow
| AgentRows (rows : list Json).

(** The [<tbody>]: [loading ? .. : agents.length === 0 ? .. : agents.map(..)] *)
Definition table_body (st : PageState) : TableBody :=
  if loading st then LoadingRow
  else match agents st with
       | [] => NoAgentsRow
       | rows => AgentRows rows
       end.

(** The error banner: [{error && <div>{error}</div>}] *)
Definition error_banner (st : PageState) : option string :=
  if truthy (error st) then Some (error st) else None.

(** ** JavaScript numbers *)

Module JsNum.

(** A finite value is an exact rational.  [PosInf], [NegInf] and [NaN]
    are what a division by zero yields; the sign of a zero is not
    tracked. *)
Inductive t : Type :=
| Num (q : Q)
| PosInf
| NegInf
| NaN.

Definition of_Z (z : Z) : t := Num (inject_Z z).

Definition is_finite (x : t) : bool :=
  match x with
  | Num _ => true
  | _ => false
  end.

(** The sign of a finite value: [Gt] positive, [Eq] zero, [Lt] negative. *)
Definition sign (q : Q) : comparison := (q ?= 0)%Q.

Definition inf_of_sign (c : comparison) : t :=
  match c with
  | Gt => PosInf
  | Lt => NegInf
  | Eq => NaN
  end.

Definition flip (c : comparison) : comparison := CompOpp c.

(** [x / y] *)
Definition div (x y : t) : t :=
  match x, y with
  | NaN, _ | _, NaN => NaN
  | Num a, Num b =>
      match sign b with
      | Eq => inf_of_sign (sign a)
      | _ => Num (a / b)
      end
  | Num _, (PosInf | NegInf) => Num 0
  | (PosInf | NegInf), (PosInf | NegInf) => NaN
  | PosInf, Num b => match sign b with Lt => NegInf | _ => PosInf end
  | NegInf, Num b => match sign b with Lt => PosInf | _ => NegInf end
  end.

(** [x * y] *)
Definition mul (x y : t) : t :=
  match x, y with
  | NaN, _ | _, NaN => NaN
  | Num a, Num b => Num (a * b)
  | Num a, PosInf | PosInf, Num a => inf_of_sign (sign a)
  | Num a, NegInf | NegInf, Num a => inf_of_sign (flip (sign a))
  | PosInf, PosInf | NegInf, NegInf => PosInf
  | PosInf, NegInf | NegInf, PosInf => NegInf
  end.

(** [x < y]; a comparison with [NaN] is false. *)
Definition lt (x y : t) : bool :=
  match x, y with
  | NaN, _ | _, NaN => false
  | Num a, Num b => match (a ?= b)%Q with Lt => true | _ => false end
  | NegInf, (Num _ | PosInf) => true
  | Num _, PosInf => true
  | _, _ => false
  end.

(** [x === y] *)
Definition strict_eq (x y : t) : bool :=
  match x, y with
  | Num a, Num b => Qeq_bool a b
  | PosInf, PosInf | NegInf, NegInf => true
  | _, _ => false
  end.

(** [x >= y] *)
Definition ge (x y : t) : bool := lt y x || strict_eq x y.

(** [Math.min(x, y)] *)
Definition min (x y : t) : t :=
  match x, y with
  | NaN, _ | _, NaN => NaN
  | _, _ => if lt y x then y else x
  end.

(** [x] is a number and is at most [bound]. *)
Definition at_most (bound : Q) (x : t) : Prop :=
  match x with
  | Num q => (q <= bound)%Q
  | NegInf => True
  | PosInf | NaN => False
  end.

(** Two values are the same number. *)
Definition same (x y : t) : Prop :=
  match x, y with
  | Num a, Num b => (a == b)%Q
  | PosInf, PosInf | NegInf, NegInf | NaN, NaN => True
  | _, _ => False
  end.

(** *** [Number.prototype.toFixed(1)] and [parseFloat] *)

Definition digit_char (n : N) : ascii :=
  ascii_of_N (48 + n mod 10).

Definition is_digit (c : ascii) : bool :=
  let n := N_of_ascii c in ((48 <=? n) && (n <=? 57))%N.

(** The decimal digits of a natural number, ["0"] for zero. *)
Definition decimal (n : N) : string :=
  DecimalString.NilZero.string_of_uint (N.to_uint n).

(** The number of tenths nearest to a non-negative [q], the larger one
    on a tie. *)
Definition nearest_tenths (q : Q) : N :=
  Z.to_N (Qfloor (q * 10 + (1 # 2))%Q).

(** [x.toFixed(1)].  For a finite [x] the sign is split off, the
    magnitude is rounded to tenths and printed with one digit after the
    point.  JavaScript switches to exponent notation from [1e21] on;
    percentages of JSON counts stay far below that, and the model prints
    plain decimals throughout. *)
Definition toFixed1 (x : t) : string :=
  match x with
  | NaN => "NaN"
  | PosInf => "Infinity"
  | NegInf => "-Infinity"
  | Num q =>
      let s := match sign q with Lt => "-" | _ => "" end in
      let n := nearest_tenths (Qabs q) in
      s ++ decimal (n / 10) ++ String "." (String (digit_char n) "")
  end.

(** The longest prefix of digits, and what follows it. *)
Fixpoint span_digits (s : string) : string * string :=
  match s with
  | EmptyString => ("", "")
  | String c s' =>
      if is_digit c
      then let (ds, rest) := span_digits s' in (String c ds, rest)
      else ("", s)
  end.

Fixpoint all_digits (s : string) : bool :=
  match s with
  | EmptyString => true
  | String c s' => is_digit c && all_digits s'
  end.

(** The value of a string of digits, 0 for the empty one. *)
Definition digits_value (ds : string) : N :=
  match DecimalString.NilEmpty.uint_of_string ds with
  | Some d => N.of_uint d
  | None => 0
  end.

(** An unsigned decimal literal at the head of [s]: digits, then
    optionally a point and more digits; at least one digit in all. *)
Definition parse_unsigned (s : string) : option Q :=
  let (ip, rest) := span_digits s in
  let whole := inject_Z (Z.of_N (digits_value ip)) in
  let point :=
    match rest with
    | String c rest' => if Ascii.eqb c "." then Some rest' else None
    | EmptyString => None
    end in
  match point with
  | Some rest' =>
      let (fp, _) := span_digits rest' in
      if ((String.length ip =? 0) && (String.length fp =? 0))%nat then None
      else Some (whole + inject_Z (Z.of_N (digits_value fp))
                         / inject_Z (10 ^ Z.of_nat (String.length fp)))%Q
  | None => if (String.length ip =? 0)%nat then None else Some whole
  end.

Definition is_space (c : ascii) : bool :=
  let n := N_of_ascii c in ((9 <=? n) && (n <=? 13) || (n =? 32))%N.

Fixpoint skip_spaces (s : string) : string :=
  match s with
  | String c s' => if is_space c then skip_spaces s' else s
  | EmptyString => s
  end.

Definition parse_magnitude (s : string) : option t :=
  if String.prefix "Infinity" s then Some PosInf
  else option_map Num (parse_unsigned s).

Definition negate (x : t) : t :=
  match x with
  | Num q => Num (- q)
  | PosInf => NegInf
  | NegInf => PosInf
  | NaN => NaN
  end.

(** [parseFloat(s)]: leading white space is skipped, then the longest
    decimal literal is read, [NaN] when there is none.  Exponent parts
    are not read: [toFixed1] never prints one. *)
Definition parseFloat (s : string) : t :=
  let s := skip_spaces s in
  let parsed :=
    match s with
    | String c s' =>
        if Ascii.eqb c "-" then option_map negate (parse_magnitude s')
        else if Ascii.eqb c "+" then parse_magnitude s'
        else parse_magnitude s
    | EmptyString => parse_magnitude s
    end in
  match parsed with
  | Some x => x
  | None => NaN
  end.

End JsNum.

(** ** Network statistics and the derivation code *)

(** A JSON object of counts ([Record<string, number>]): its entries in
    the object's own order. *)
Definition Dist : Type := list (string * Z).

(** [obj[key]]: the value of the property, if the object has it. *)
Fixpoint lookup (key : string) (obj : Dist) : option Z :=
  match obj with
  | [] => None
  | (k, v) :: obj' => if String.eqb k key then Some v else lookup key obj'
  end.

(** [Object.keys(obj)] *)
Definition keys (obj : Dist) : list string := map fst obj.

(** Modelled from the spec: the type [NetworkStats] of [@/lib/api], whose
    declaration is not among the sources.  The fields are those of the
    data model, the counts integers. *)
Record NetworkStats : Type := mkStats {
  total_agents : Z;
  avg_score : Q;
  total_feedback : Z;
  tier_distribution : Dist;
  chain_distribution : Dist;
  category_counts : Dist;
  protocol_counts : Dist
}.

(** Modelled from the spec: the constant [TIER_ORDER] of
    [@/lib/constants], which [LeaderboardPage] imports and whose
    declaration is not among the sources.  The spec gives the canonical
    order. *)
Definition TIER_ORDER : list string :=
  ["diamond"; "platinum"; "gold"; "silver"; "bronze"; "unranked"].

(** The array literal that [Home] maps over in place of [TIER_ORDER]. *)
Definition HOME_TIER_ORDER : list string :=
  ["diamond"; "platinum"; "gold"; "silver"; "bronze"; "unranked"].

(** [obj[key] || 0]: a missing property and a zero both give 0. *)
Definition count_of (key : string) (obj : Dist) : Z :=
  match lookup key obj with
  | Some v => if v =? 0 then 0 else v
  | None => 0
  end.

(** [total > 0 ? (count / total) * 100 : 0], the percentage of the tier
    bars of both pages and, before formatting, of the coverage cards,
    on exact rationals.  It is 0 exactly when the percentage of the
    pages is, which is what the renderers test; [Double.pct] is the
    same expression with the rounding of the pages. *)
Definition pct (count total : Z) : JsNum.t :=
  if 0 <? total
  then JsNum.mul (JsNum.div (JsNum.of_Z count) (JsNum.of_Z total)) (JsNum.of_Z 100)
  else JsNum.of_Z 0.

(** The table [colors] of the tier bar and the table [dotColors] of the
    legend. *)
Definition colors : list (string * string) :=
  [("diamond", "bg-cyan-500"); ("platinum", "bg-violet-500");
   ("gold", "bg-yellow-500"); ("silver", "bg-gray-400");
   ("bronze", "bg-orange-500"); ("unranked", "bg-gray-700")].

Definition dotColors : list (string * string) :=
  [("diamond", "bg-cyan-500"); ("platinum", "bg-violet-500");
   ("gold", "bg-yellow-500"); ("silver", "bg-gray-400");
   ("bronze", "bg-orange-500"); ("unranked", "bg-gray-700")].

Fixpoint assoc (key : string) (table : list (string * string)) : option string :=
  match table with
  | [] => None
  | (k, v) :: table' => if String.eqb k key then Some v else assoc key table'
  end.

(** One segment of the stacked tier bar: its key, its colour class, the
    number put in [style.width] (followed by [%]) and the count shown in
    the tooltip. *)
Record Segment : Type := mkSegment {
  seg_tier : string;
  seg_color : option string;
  seg_width : JsNum.t;
  seg_count : Z
}.

(** One entry of the tier legend. *)
Record LegendEntry : Type := mkLegend {
  leg_tier : string;
  leg_dot : option string;
  leg_count : Z
}.

(** The callback of the first [.map] over the tier order: a segment, or
    [null] when the percentage is 0. *)
Definition tier_segment (stats : NetworkStats) (tier : string) : option Segment :=
  let count := count_of tier (tier_distribution stats) in
  let pct := pct count (total_agents stats) in
  if JsNum.strict_eq pct (JsNum.of_Z 0) then None
  else Some {| seg_tier := tier; seg_color := assoc tier colors;
               seg_width := pct; seg_count := count |}.

(** The callback of the second [.map]: a legend entry, or [null] when the
    count is 0. *)
Definition tier_legend_entry (stats : NetworkStats) (tier : string) : option LegendEntry :=
  let count := count_of tier (tier_distribution stats) in
  if count =? 0 then None
  else Some {| leg_tier := tier; leg_dot := assoc tier dotColors;
               leg_count := count |}.

(** React renders the children of an array in array order and skips the
    [null] ones. *)
Fixpoint rendered {A : Type} (children : list (option A)) : list A :=
  match children with
  | [] => []
  | Some x :: rest => x :: rendered rest
  | None :: rest => rendered rest
  end.

Definition tier_segments (order : list string) (stats : NetworkStats) : list Segment :=
  rendered (map (tier_segment stats) order).

Definition tier_legend (order : list string) (stats : NetworkStats) : list LegendEntry :=
  rendered (map (tier_legend_entry stats) order).

(** The tier block of a page: present when [stats] has arrived and its
    [tier_distribution] has at least one key. *)
Definition tier_block (order : list string) (stats : option NetworkStats)
  : option (list Segment * list LegendEntry) :=
  match stats with
  | Some s =>
      if (0 <? length (keys (tier_distribution s)))%nat
      then Some (tier_segments order s, tier_legend order s)
      else None
  | None => None
  end.

Definition leaderboard_tier_block := tier_block TIER_ORDER.
Definition home_tier_block := tier_block HOME_TIER_ORDER.

(** *** Filter buttons of [LeaderboardPage] *)

Definition CHAINS : list (string * string) :=
  [("", "All Chains"); ("avalanche", "Avalanche"); ("ethereum", "Ethereum");
   ("base", "Base"); ("polygon", "Polygon")].

Definition CATEGORIES : list (string * string) :=
  [("", "All"); ("defi", "DeFi"); ("gaming", "Gaming"); ("rwa", "RWA");
   ("payments", "Payments"); ("data", "Data"); ("general", "General")].

(** A filter button: slug, label, whether it is the active one, and the
    count badge, [None] when no badge is rendered. *)
Record FilterButton : Type := mkButton {
  btn_slug : string;
  btn_label : string;
  btn_active : bool;
  btn_badge : option Z
}.

(** [stats?.chain_distribution?.[slug] || 0] and its category twin *)
Definition stat_count (field : NetworkStats -> Dist) (stats : option NetworkStats)
    (slug : string) : Z :=
  match stats with
  | Some s => count_of slug (field s)
  | None => 0
  end.

(** The callback of [CHAINS.map] and of [CATEGORIES.map]; the badge is
    [{slug && count > 0 && <span>..</span>}]. *)
Definition filter_button (field : NetworkStats -> Dist) (stats : option NetworkStats)
    (selected : string) (entry : string * string) : FilterButton :=
  let (slug, label) := entry in
  let count := stat_count field stats slug in
  {| btn_slug := slug; btn_label := label;
     btn_active := String.eqb selected slug;
     btn_badge := if truthy slug && (0 <? count) then Some count else None |}.

Definition chain_buttons (stats : option NetworkStats) (st : PageState) : list FilterButton :=
  map (filter_button chain_distribution stats (chain st)) CHAINS.

Definition category_buttons (stats : option NetworkStats) (st : PageState) : list FilterButton :=
  map (filter_button category_counts stats (category st)) CATEGORIES.

(** *** [ScoreBar]

    The score printed with one decimal, the colour class of the bar and
    the number put in its [style.width].  The colour of the text comes
    from [getScoreColor] of [@/lib/constants], which is not among the
    sources, and is left out. *)

Record ScoreBarView : Type := mkScoreBar {
  score_text : string;
  score_class : string;
  score_width : JsNum.t
}.

Definition ScoreBar (score : JsNum.t) : ScoreBarView :=
  {| score_text := JsNum.toFixed1 score;
     score_class :=
       if JsNum.ge score (JsNum.of_Z 80) then "bg-success"
       else if JsNum.ge score (JsNum.of_Z 60) then "bg-primary"
       else if JsNum.ge score (JsNum.of_Z 40) then "bg-warning"
       else "bg-danger";
     score_width := JsNum.min (JsNum.of_Z 100) score |}.

(** *** Coverage cards of [Home] *)

Definition PROTOCOLS : list (string * string) :=
  [("https", "HTTPS"); ("x402", "x402"); ("8004", "ERC-8004"); ("a2a", "A2A")].

Definition HOME_CHAINS : list (string * string) :=
  [("avalanche", "Avalanche"); ("ethereum", "Ethereum"); ("base", "Base");
   ("polygon", "Polygon")].

(** [total > 0 ? ((count / total) * 100).toFixed(1) : "0"], on exact
    rationals; [Double.pct_text] prints the double of the pages, which
    can fall on the other side of a half: 9 of 2000 is 0.45 here and
    0.44999999999999996 there. *)
Definition pct_text (count total : Z) : string :=
  if 0 <? total
  then JsNum.toFixed1
         (JsNum.mul (JsNum.div (JsNum.of_Z count) (JsNum.of_Z total)) (JsNum.of_Z 100))
  else "0".

(** One card: key, label, the count shown, the number put in the bar's
    [style.width] and the percentage text under the bar. *)
Record Card : Type := mkCard {
  card_key : string;
  card_label : string;
  card_count : Z;
  card_width : JsNum.t;
  card_pct : string
}.

(** The callback of the two [.map] calls over the fixed card lists. *)
Definition coverage_card (obj : Dist) (total : Z) (entry : string * string) : Card :=
  let (key, label) := entry in
  let count := count_of key obj in
  let pct := pct_text count total in
  {| card_key := key; card_label := label; card_count := count;
     card_width := JsNum.min (JsNum.of_Z 100) (JsNum.parseFloat pct);
     card_pct := pct |}.

(** A card section is present when [stats] has arrived and the object it
    reads has at least one key. *)
Definition coverage_cards (field : NetworkStats -> Dist) (entries : list (string * string))
    (stats : option NetworkStats) : option (list Card) :=
  match stats with
  | Some s =>
      if (0 <? length (keys (field s)))%nat
      then Some (map (coverage_card (field s) (total_agents s)) entries)
      else None
  | None => None
  end.

Definition protocol_cards := coverage_cards protocol_counts PROTOCOLS.
Definition chain_cards := coverage_cards chain_distribution HOME_CHAINS.

(** ** Concrete data used by the examples *)

Definition API0 : string := "https://api.agent402.io".

Definition agent_row (id : Z) (chain_slug : string) : Json :=
  JObj [("agent_id", JNum (inject_Z id)); ("chain", JStr chain_slug);
        ("tier", JStr "gold"); ("composite_score", JNum 71);
        ("feedback_count", JNum 3)].

Definition base_rows : list Json := [agent_row 7 "base"].
Definition polygon_rows : list Json := [agent_row 9 "polygon"; agent_row 4 "polygon"].

Definition ok_json (j : Json) : FetchOutcome :=
  Responded {| status := 200; body := Some j |}.

Definition http_status (code : Z) : FetchOutcome :=
  Responded {| status := code; body := Some (JObj [("detail", JStr "error")]) |}.

(** ** Classifying events and outcomes *)

(** An event that starts a listing fetch: the activation, or a click
    that changes one of the two filter slots. *)
Definition starts_fetch (w : World) (e : Event) : bool :=
  match e with
  | Activate => true
  | ClickCategory slug => negb (String.eqb slug (category (page w)))
  | ClickChain slug => negb (String.eqb slug (chain (page w)))
  | Settle _ _ => false
  end.

(** A fetch that ends in a network failure. *)
Definition network_failure (o : FetchOutcome) : bool :=
  match o with
  | NetworkError => true
  | Responded _ => false
  end.

(** A fetch that ends in a non-ok status other than payment required. *)
Definition http_failure (o : FetchOutcome) : bool :=
  match o with
  | NetworkError => false
  | Responded r => negb (status r =? 402) && negb (ok r)
  end.

(** ** What the tier bar and the legend show *)

(** The tiers whose segment is rendered: those with a non-zero
    percentage. *)
Definition segment_shown (stats : NetworkStats) (tier : string) : bool :=
  negb (JsNum.strict_eq
          (pct (count_of tier (tier_distribution stats)) (total_agents stats))
          (JsNum.of_Z 0)).

(** The tiers whose legend entry is rendered: those with a non-zero
    count. *)
Definition legend_shown (stats : NetworkStats) (tier : string) : bool :=
  negb (count_of tier (tier_distribution stats) =? 0).

(** The statistics of the spec's scenario, and the same statistics with
    the two tiers listed the other way round. *)
Definition gold_silver_stats : NetworkStats :=
  {| total_agents := 100; avg_score := 55; total_feedback := 12;
     tier_distribution := [("gold", 40); ("silver", 60)];
     chain_distribution := [("base", 70); ("polygon", 30)];
     category_counts := [("defi", 100)];
     protocol_counts := [("https", 0); ("x402", 50)] |}.

Definition silver_gold_stats : NetworkStats :=
  {| total_agents := 100; avg_score := 55; total_feedback := 12;
     tier_distribution := [("silver", 60); ("gold", 40)];
     chain_distribution := [("base", 70); ("polygon", 30)];
     category_counts := [("defi", 100)];
     protocol_counts := [("https", 0); ("x402", 50)] |}.

(** Statistics with counts but no total. *)
Definition no_total_stats : NetworkStats :=
  {| total_agents := 0; avg_score := 0; total_feedback := 0;
     tier_distribution := [("gold", 4)];
     chain_distribution := [("base", 4)];
     category_counts := [];
     protocol_counts := [("x402", 4)] |}.

(** Statistics whose gold count exceeds the total. *)
Definition inconsistent_stats : NetworkStats :=
  {| total_agents := 10; avg_score := 55; total_feedback := 12;
     tier_distribution := [("gold", 25)];
     chain_distribution := [("base", 25)];
     category_counts := [];
     protocol_counts := [("x402", 25)] |}.

(** The three distributions that feed a legend or a filter badge. *)
Inductive Dimension : Type :=
| TierDim
| ChainDim
| CategoryDim.

Definition dimension_counts (d : Dimension) (stats : NetworkStats) : Dist :=
  match d with
  | TierDim => tier_distribution stats
  | ChainDim => chain_distribution stats
  | CategoryDim => category_counts stats
  end.

(** What a card shows: key, count and percentage text. *)
Definition card_face (c : Card) : string * Z * string :=
  (card_key c, card_count c, card_pct c).

(** A card as it is rendered for a count of 0: the count label 0, a bar
    of width 0, and the text ["0.0"], or ["0"] when there is no total. *)
Definition zero_card (total : Z) (c : Card) : Prop :=
  card_count c = 0
  /\ card_pct c = (if 0 <? total then "0.0" else "0")
  /\ JsNum.same (card_width c) (JsNum.of_Z 0).

(** ** Reachable worlds *)

(** The worlds that the page can be in: those that a sequence of events
    leads to from the unmounted component. *)
Definition reachable (API : string) (w : World) : Prop :=
  exists es : list Event, w = run API unmounted es.

(** The identifier of every request in flight is below the number of
    requests issued. *)
Definition ids_below (w : World) : Prop :=
  Forall (fun rq => (req_id rq < length (issued w))%nat) (inflight w).

(** ** Scenarios *)

(** The scenario of the staleness property: activation, then the chain
    filter goes to base and at once to polygon; the polygon response
    arrives first and the base response after it. *)
Definition stale_scenario : World :=
  run API0 unmounted
    [Activate; Settle 0 (ok_json (JArr []));
     ClickChain "base"; ClickChain "polygon";
     Settle 2 (ok_json (JArr polygon_rows));
     Settle 1 (ok_json (JArr base_rows))].

(** Two failing fetches, each after a listing has been shown: a network
    failure on the second request, and a status 500 on it. *)
Definition network_failure_scenario : World :=
  run API0 unmounted
    [Activate; Settle 0 (ok_json (JArr polygon_rows));
     ClickChain "base"; Settle 1 NetworkError].

Definition server_error_scenario : World :=
  run API0 unmounted
    [Activate; Settle 0 (ok_json (JArr polygon_rows));
     ClickChain "base"; Settle 1 (http_status 500)].

(** A body that parses but is not an array, arriving with status 200
    after a listing has been shown. *)
Definition non_array_scenario : World :=
  run API0 unmounted
    [Activate; Settle 0 (ok_json (JArr polygon_rows));
     ClickChain "base"; Settle 1 (ok_json (JObj [("agents", JArr base_rows)]))].

(** A 402 on the first request, then a filter change, then a listing. *)
Definition error_survives_scenario : list Event :=
  [Activate; Settle 0 (http_status 402); ClickChain "base"].

(** ** The listing fetcher over a whole run *)

(** The number of events of a run that start a listing fetch. *)
Fixpoint fetch_starts (API : string) (w : World) (es : list Event) : nat :=
  match es with
  | [] => 0
  | e :: es' =>
      ((if starts_fetch w e then 1 else 0) + fetch_starts API (step API w e) es')%nat
  end.

(** The URL of the request sent last, if any was sent. *)
Definition last_url (w : World) : option string :=
  match rev (issued w) with
  | [] => None
  | rq :: _ => Some (req_url rq)
  end.

(** The three values that [error] takes. *)
Definition known_error (s : string) : Prop :=
  s = "" \/ s = PAID_ENDPOINT \/ s = FAILED_TO_LOAD.

(** Whether every click of a run is a click on one of the buttons that
    the page renders. *)
Definition on_rendered_button (e : Event) : bool :=
  match e with
  | ClickChain slug => existsb (String.eqb slug) (map fst CHAINS)
  | ClickCategory slug => existsb (String.eqb slug) (map fst CATEGORIES)
  | Activate | Settle _ _ => true
  end.

(** The number of buttons of a row that are drawn as the active one. *)
Definition active_count (buttons : list FilterButton) : nat :=
  length (filter btn_active buttons).

(** ** The statistics fetchers

    The first effect of [LeaderboardPage] and the effect of [Home] hang
    the same chain on a fetch:
    [.then((r) => (r.ok ? r.json() : null)).then(setX).catch(() => {})].
    The chain is written once, for any state type and any setter. *)

Module Chain.

Definition t (S A : Type) : Type := S -> S * Promise.Settled A.

Definition resolve {S A} (a : A) : t S A := fun st => (st, Promise.Fulfilled a).

Definition reject {S A} : t S A := fun st => (st, Promise.Rejected).

Definition then_ {S A B} (p : t S A) (f : A -> t S B) : t S B :=
  fun st =>
    match p st with
    | (st', Promise.Fulfilled a) => f a st'
    | (st', Promise.Rejected) => (st', Promise.Rejected)
    end.

Definition catch_ {S A} (p : t S A) (h : t S A) : t S A :=
  fun st =>
    match p st with
    | (st', Promise.Fulfilled a) => (st', Promise.Fulfilled a)
    | (st', Promise.Rejected) => h st'
    end.

Definition set {S} (f : S -> S) : t S unit :=
  fun st => (f st, Promise.Fulfilled tt).

End Chain.

(** A response whose JSON body is read at the type [A]; [reply_body] is
    [None] when [r.json()] rejects. *)
Record Reply (A : Type) : Type := mkReply {
  reply_status : Z;
  reply_body : option A
}.
Arguments mkReply {A} _ _.
Arguments reply_status {A} _.
Arguments reply_body {A} _.

Definition reply_ok {A} (r : Reply A) : bool :=
  (200 <=? reply_status r) && (reply_status r <=? 299).

Inductive Outcome (A : Type) : Type :=
| Unreachable
| Replied (r : Reply A).
Arguments Unreachable {A}.
Arguments Replied {A} r.

Section StatsChain.

Context {S A : Type}.

(** The setter of the slot, [setStats] or [setPayments]. *)
Variable setter : option A -> S -> S.

Definition stats_chain (o : Outcome A) : Chain.t S unit :=
  Chain.catch_
    (Chain.then_
       (Chain.then_
          (match o with
           | Unreachable => Chain.reject
           | Replied r => Chain.resolve r
           end)
          (fun r =>
             if reply_ok r
             then match reply_body r with
                  | Some a => Chain.resolve (Some a)
                  | None => Chain.reject
                  end
             else Chain.resolve None))
       (fun v => Chain.set (setter v)))
    (Chain.resolve tt).

End StatsChain.

(** Modelled from the spec: the type [PaymentStats] of [@/lib/api], whose
    declaration is not among the sources; [Home] reads the one field
    [total_payments]. *)
Record PaymentStats : Type := mkPayments {
  total_payments : Z
}.

(** The two [useState] slots of [Home]. *)
Record HomeState : Type := mkHome {
  home_stats : option NetworkStats;
  home_payments : option PaymentStats
}.

Definition setStats (v : option NetworkStats) (st : HomeState) : HomeState :=
  {| home_stats := v; home_payments := home_payments st |}.

Definition setPayments (v : option PaymentStats) (st : HomeState) : HomeState :=
  {| home_stats := home_stats st; home_payments := v |}.

(** [Home] with its two requests; each is sent once, by the effect, and
    settles at most once. *)
Record HomeWorld : Type := mkHomeWorld {
  home : HomeState;
  home_issued : list string;
  stats_inflight : bool;
  payments_inflight : bool
}.

Inductive HomeEvent : Type :=
| HomeActivate
| SettleStats (o : Outcome NetworkStats)
| SettlePayments (o : Outcome PaymentStats).

Definition home_unmounted : HomeWorld :=
  {| home := {| home_stats := None; home_payments := None |};
     home_issued := []; stats_inflight := false; payments_inflight := false |}.

Definition home_step (API : string) (w : HomeWorld) (e : HomeEvent) : HomeWorld :=
  match e with
  | HomeActivate =>
      {| home := home w;
         home_issued := (home_issued w
                           ++ [(API ++ "/api/v1/network/stats")%string;
                               (API ++ "/api/v1/payments/stats")%string])%list;
         stats_inflight := true; payments_inflight := true |}
  | SettleStats o =>
      if stats_inflight w then
        {| home := fst (stats_chain setStats o (home w));
           home_issued := home_issued w;
           stats_inflight := false; payments_inflight := payments_inflight w |}
      else w
  | SettlePayments o =>
      if payments_inflight w then
        {| home := fst (stats_chain setPayments o (home w));
           home_issued := home_issued w;
           stats_inflight := stats_inflight w; payments_inflight := false |}
      else w
  end.

Definition home_run (API : string) (w : HomeWorld) (es : list HomeEvent) : HomeWorld :=
  fold_left (home_step API) es w.

(** The slot [stats] of [LeaderboardPage] and its chain. *)
Definition leaderboard_stats_chain (o : Outcome NetworkStats)
  : Chain.t (option NetworkStats) unit :=
  stats_chain (fun v _ => v) o.

(** What a [StatCard] of [Home] shows: a fixed text, or a number passed
    through [toLocaleString()], whose digits grouping depends on the
    locale and is not modelled. *)
Inductive CardValue : Type :=
| Text (s : string)
| Localized (n : Z).

(** The four cards of the live statistics: label and value. *)
Definition stat_cards (st : HomeState) : list (string * CardValue) :=
  [("Agents Indexed",
    match home_stats st with
    | Some s => Localized (total_agents s)
    | None => Text "—"
    end);
   ("Avg Trust Score",
    match home_stats st with
    | Some s => Text (JsNum.toFixed1 (JsNum.Num (avg_score s)))
    | None => Text "—"
    end);
   ("Total Feedback",
    match home_stats st with
    | Some s => Localized (total_feedback s)
    | None => Text "—"
    end);
   ("x402 Payments",
    match home_payments st with
    | Some p => Localized (total_payments p)
    | None => Text "0"
    end)].

(** A stats fetch that does not deliver statistics: no connection, a
    status that is not ok, or a body that does not parse. *)
Definition no_delivery {A} (o : Outcome A) : bool :=
  match o with
  | Unreachable => true
  | Replied r => negb (reply_ok r) || match reply_body r with None => true | Some _ => false end
  end.

(** ** Reading a serialized value back

    The inverse of [URLSearchParams.serialize_bytes], as a form parser
    reads a value: [+] is a space and [%XY] is the byte with the
    hexadecimal digits [X] and [Y]. *)

Definition hex_value (c : ascii) : option nat :=
  let n := nat_of_ascii c in
  if ((48 <=? n) && (n <=? 57))%nat then Some (n - 48)%nat
  else if ((65 <=? n) && (n <=? 70))%nat then Some (n - 55)%nat
  else if ((97 <=? n) && (n <=? 102))%nat then Some (n - 87)%nat
  else None.

Fixpoint percent_decode (s : string) : string :=
  match s with
  | EmptyString => ""
  | String c s' =>
      if Ascii.eqb c "+" then String " " (percent_decode s')
      else if Ascii.eqb c "%" then
        match s' with
        | String h (String l s'') =>
            match hex_value h, hex_value l with
            | Some a, Some b =>
                String (ascii_of_nat (16 * a + b)) (percent_decode s'')
            | _, _ => String c (percent_decode s')
            end
        | _ => String c (percent_decode s')
        end
      else String c (percent_decode s')
  end.

(** Whether the byte [c] occurs in [s]. *)
Fixpoint occurs (c : ascii) (s : string) : bool :=
  match s with
  | EmptyString => false
  | String c' s' => Ascii.eqb c' c || occurs c s'
  end.

(** ** The rows of the leaderboard table *)

Module TrustedAgent.

(** Modelled from the spec: the type [TrustedAgent] of [@/lib/api], whose
    declaration is not among the sources.  An optional field that is
    absent is [None]. *)
Record t : Type := mk {
  agent_id : Z;
  name : option string;
  chain : string;
  category : option string;
  tier : string;
  composite_score : Q;
  feedback_count : Z
}.

End TrustedAgent.

Definition TIER_ICONS : list (string * string) :=
  [("diamond", "💎"); ("platinum", "⭐"); ("gold", "🏆");
   ("silver", "🪙"); ("bronze", "🥉"); ("unranked", "➖")].

Definition CHAIN_COLORS : list (string * string) :=
  [("avalanche", "text-red-400"); ("ethereum", "text-blue-400");
   ("base", "text-blue-300"); ("polygon", "text-purple-400");
   ("solana", "text-purple-400")].

(** The integers that a double holds exactly and that JavaScript calls
    safe: those of magnitude below [2^53]. *)
Definition safe_integer (z : Z) : Prop := - 2 ^ 53 < z < 2 ^ 53.

(** An integer in a template literal: its decimal digits, with a minus
    sign when negative.  This is what JavaScript prints for a safe
    integer; a larger number has been rounded on arrival, and from
    [1e21] on is printed with an exponent. *)
Definition show_int (z : Z) : string :=
  if z <? 0 then String "-" (JsNum.decimal (Z.to_N (- z)))
  else JsNum.decimal (Z.to_N z).

(** [s || fallback] for an optional string: an absent and an empty
    string both give the fallback. *)
Definition or_else (s : option string) (fallback : string) : string :=
  match s with
  | Some v => if truthy v then v else fallback
  | None => fallback
  end.

(** [table[key] || fallback] *)
Definition assoc_or (key : string) (table : list (string * string))
    (fallback : string) : string :=
  or_else (assoc key table) fallback.

(** One [<tr>]: the React key, the rank, the title, the identifier line
    with the chain and its colour class, the category, the tier with its
    icon, the score bar, the feedback count and the link.  The classes of
    the tier badge come from [getTierColor] of [@/lib/constants], which
    is not among the sources, and are left out. *)
Record Row : Type := mkRow {
  row_key : Z;
  row_rank : nat;
  row_title : string;
  row_id : string;
  row_chain_class : string;
  row_chain : string;
  row_category : string;
  row_tier_icon : string;
  row_tier : string;
  row_score : ScoreBarView;
  row_feedback : Z;
  row_href : string
}.

(** The callback of [agents.map((agent, i) => ..)]. *)
Definition agent_row_view (agent : TrustedAgent.t) (i : nat) : Row :=
  {| row_key := TrustedAgent.agent_id agent;
     row_rank := i + 1;
     row_title :=
       or_else (TrustedAgent.name agent)
         ("Agent #" ++ show_int (TrustedAgent.agent_id agent));
     row_id := "#" ++ show_int (TrustedAgent.agent_id agent);
     row_chain_class :=
       "capitalize " ++ assoc_or (TrustedAgent.chain agent) CHAIN_COLORS "text-muted-3";
     row_chain := TrustedAgent.chain agent;
     row_category := or_else (TrustedAgent.category agent) "—";
     row_tier_icon := assoc_or (TrustedAgent.tier agent) TIER_ICONS "";
     row_tier := TrustedAgent.tier agent;
     row_score := ScoreBar (JsNum.Num (TrustedAgent.composite_score agent));
     row_feedback := TrustedAgent.feedback_count agent;
     row_href := "/lookup?id=" ++ show_int (TrustedAgent.agent_id agent) |}.

(** [agents.map] with the index, from index [i] on. *)
Fixpoint rows_from (i : nat) (agents : list TrustedAgent.t) : list Row :=
  match agents with
  | [] => []
  | agent :: rest => agent_row_view agent i :: rows_from (S i) rest
  end.

(** The rows of a listing read at the type [TrustedAgent]. *)
Definition agent_rows (agents : list TrustedAgent.t) : list Row :=
  rows_from 0 agents.

(** The number of pairs of a query that are called [name]. *)
Definition count_named (name : string) (p : URLSearchParams.t) : nat :=
  length (filter (fun kv => String.eqb (fst kv) name) p).

(** ** IEEE doubles

    The numbers of the pages are IEEE 754 doubles.  [JsNum] computes on
    exact rationals, which is all that the comparisons with 0 and the
    clamping need; this module adds the rounding, so that a percentage
    can be followed digit for digit.  A double is carried as the
    rational it denotes, in a [JsNum.t]. *)

Module Double.

(** The integer nearest to [y]; of two equally near ones, the even one. *)
Definition nearest_even (y : Q) : Z :=
  let f := Qfloor y in
  match (y - inject_Z f ?= 1 # 2)%Q with
  | Lt => f
  | Gt => f + 1
  | Eq => if Z.even f then f else f + 1
  end.

(** For [q > 0], the [e] with [2^52 <= q / 2^e < 2^53]: the logarithms
    of numerator and denominator give it up to one, the comparison
    settles it. *)
Definition binade (q : Q) : Z :=
  let e0 := Z.log2 (Qnum q) - Z.log2 (Zpos (Qden q)) - 52 in
  if Qle_bool (2 ^ (e0 + 52)) q then e0 else e0 - 1.

(** The exponent of the last place of the double nearest to [q]: that
    of the binade, and not below [-1074], where the subnormal numbers
    end. *)
Definition ulp_exponent (q : Q) : Z := Z.max (binade q) (-1074).

(** Rounding a positive rational to the nearest double, ties to even;
    from [2^1024] on the result is [Infinity]. *)
Definition round_pos (q : Q) : JsNum.t :=
  let e := ulp_exponent q in
  let m := nearest_even (q / 2 ^ e) in
  if (971 <? e) || ((e =? 971) && (2 ^ 53 <=? m)) then JsNum.PosInf
  else JsNum.Num (inject_Z m * 2 ^ e).

(** Rounding to the nearest double. *)
Definition round (q : Q) : JsNum.t :=
  match (q ?= 0)%Q with
  | Eq => JsNum.Num 0
  | Gt => round_pos q
  | Lt => JsNum.negate (round_pos (- q))
  end.

Definition round_result (x : JsNum.t) : JsNum.t :=
  match x with
  | JsNum.Num q => round q
  | _ => x
  end.

(** An integer as the page receives it, in a JSON body or as a literal
    of the program: the nearest double. *)
Definition of_int (z : Z) : JsNum.t := round (inject_Z z).

(** [x / y] and [x * y] on doubles: the exact result, rounded. *)
Definition div (x y : JsNum.t) : JsNum.t := round_result (JsNum.div x y).

Definition mul (x y : JsNum.t) : JsNum.t := round_result (JsNum.mul x y).

(** [total > 0 ? (count / total) * 100 : 0], as the pages compute it. *)
Definition pct (count total : Z) : JsNum.t :=
  if JsNum.lt (of_int 0) (of_int total)
  then mul (div (of_int count) (of_int total)) (of_int 100)
  else of_int 0.

(** [total > 0 ? ((count / total) * 100).toFixed(1) : "0"], as [Home]
    computes it: [toFixed] prints the double, not the exact quotient. *)
Definition pct_text (count total : Z) : string :=
  if JsNum.lt (of_int 0) (of_int total)
  then JsNum.toFixed1 (mul (div (of_int count) (of_int total)) (of_int 100))
  else "0".

(** The relative error that one rounding can add: [2^-53]. *)
Definition u : Q := 1 # 9007199254740992.

(** The relative error allowed to a percentage, which is rounded twice:
    [2^-51]. *)
Definition eps : Q := 1 # 2251799813685248.

End Double.

(** * Properties *)

(** ** The promise chain of one listing fetch, case by case *)

Ltac unfold_chain :=
  unfold listing_chain, Promise.exec, Promise.settled, Promise.finally_,
    Promise.catch_, Promise.then_, fetch_settle, on_response, on_data, json,
    setError, setAgents, setLoading, Promise.set, Promise.resolve,
    Promise.reject.

Lemma ok_not_402 (r : Response) : ok r = true -> (status r =? 402) = false.
Proof.
  unfold ok. intros H. apply andb_true_iff in H as [_ H].
  apply Z.leb_le in H. apply Z.eqb_neq. lia.
Qed.

Lemma chain_network_error (st : PageState) :
  listing_chain NetworkError st
  = (with_loading false (with_error FAILED_TO_LOAD st), Promise.Fulfilled tt).
Proof. reflexivity. Qed.

Lemma chain_payment_required (r : Response) (st : PageState) :
  status r = 402 ->
  listing_chain (Responded r) st
  = (with_loading false (with_agents [] (with_error PAID_ENDPOINT st)),
     Promise.Fulfilled tt).
Proof.
  intros H. unfold_chain. rewrite H. reflexivity.
Qed.

Lemma chain_not_ok (r : Response) (st : PageState) :
  status r <> 402 -> ok r = false ->
  listing_chain (Responded r) st
  = (with_loading false (with_agents [] st), Promise.Fulfilled tt).
Proof.
  intros H402 Hok. unfold_chain.
  apply Z.eqb_neq in H402. rewrite H402, Hok. reflexivity.
Qed.

Lemma chain_ok_array (r : Response) (rows : list Json) (st : PageState) :
  ok r = true -> body r = Some (JArr rows) ->
  listing_chain (Responded r) st
  = (with_loading false (with_agents rows st), Promise.Fulfilled tt).
Proof.
  intros Hok Hbody. unfold_chain.
  rewrite (ok_not_402 r Hok), Hok, Hbody. reflexivity.
Qed.

Lemma chain_ok_not_array (r : Response) (j : Json) (st : PageState) :
  ok r = true -> body r = Some j -> isArray j = false ->
  listing_chain (Responded r) st = (with_loading false st, Promise.Fulfilled tt).
Proof.
  intros Hok Hbody Harr. unfold_chain.
  rewrite (ok_not_402 r Hok), Hok, Hbody.
  destruct j; simpl in Harr; try discriminate; reflexivity.
Qed.

Lemma chain_ok_unparsable (r : Response) (st : PageState) :
  ok r = true -> body r = None ->
  listing_chain (Responded r) st
  = (with_loading false (with_error FAILED_TO_LOAD st), Promise.Fulfilled tt).
Proof.
  intros Hok Hbody. unfold_chain.
  rewrite (ok_not_402 r Hok), Hok, Hbody. reflexivity.
Qed.

(** Whatever the outcome, the chain settles fulfilled: nothing is left as
    an unhandled rejection. *)
Lemma chain_never_rejects (o : FetchOutcome) (st : PageState) :
  Promise.settled (listing_chain o) st = Promise.Fulfilled tt.
Proof.
  destruct o as [|r]; [reflexivity|].
  unfold_chain.
  destruct (status r =? 402); [reflexivity|].
  destruct (ok r); [|reflexivity].
  destruct (body r) as [j|]; [|reflexivity].
  destruct j; reflexivity.
Qed.

(** Whatever the outcome, the chain ends with the loading flag down and
    leaves the two filter slots alone. *)
Lemma chain_frame (o : FetchOutcome) (st : PageState) :
  let st' := Promise.exec (listing_chain o) st in
  loading st' = false /\ category st' = category st /\ chain st' = chain st.
Proof.
  destruct o as [|r]; [repeat split|].
  unfold_chain.
  destruct (status r =? 402); [repeat split|].
  destruct (ok r); [|repeat split].
  destruct (body r) as [j|]; [|repeat split].
  destruct j; repeat split.
Qed.

(** ** Requests in flight *)

Lemma pending_remove_other (id id' : nat) (w : World) (st : PageState) :
  id <> id' ->
  pending id {| page := st; issued := issued w;
                inflight := remove_request id' (inflight w) |}
  = pending id w.
Proof.
  intros Hne. unfold pending, remove_request. simpl.
  induction (inflight w) as [|rq l IH]; [reflexivity|].
  simpl. destruct (Nat.eqb (req_id rq) id') eqn:E'; simpl.
  - rewrite IH. destruct (Nat.eqb (req_id rq) id) eqn:E; [|reflexivity].
    apply Nat.eqb_eq in E, E'. congruence.
  - rewrite IH. reflexivity.
Qed.

Lemma step_settle_pending (API : string) (w : World) (id : nat) (o : FetchOutcome) :
  pending id w = true ->
  step API w (Settle id o)
  = {| page := Promise.exec (listing_chain o) (page w);
       issued := issued w;
       inflight := remove_request id (inflight w) |}.
Proof. intros H. simpl. rewrite H. reflexivity. Qed.

(** The effect never takes a request out of flight: nothing is cancelled. *)
Lemma effect_keeps_pending (API : string) (w : World) (id : nat) :
  pending id w = true -> pending id (listing_effect API w) = true.
Proof.
  unfold pending, listing_effect. simpl. intros H.
  rewrite existsb_app, H. reflexivity.
Qed.

(** Every request in flight was issued before: its identifier is below
    the number of requests issued so far. *)
Lemma effect_ids_below (API : string) (w : World) :
  ids_below w -> ids_below (listing_effect API w).
Proof.
  unfold ids_below, listing_effect. cbn [inflight issued].
  intros H. rewrite length_app. cbn [length].
  apply Forall_app. split.
  - eapply Forall_impl; [|exact H]. cbn. intros rq Hrq. lia.
  - constructor; [cbn; lia|constructor].
Qed.

Lemma step_ids_below (API : string) (w : World) (e : Event) :
  ids_below w -> ids_below (step API w e).
Proof.
  intros H. destruct e as [|slug|slug|id o]; cbn [step].
  - apply effect_ids_below. exact H.
  - destruct (String.eqb slug (category (page w))); [exact H|].
    apply effect_ids_below. exact H.
  - destruct (String.eqb slug (chain (page w))); [exact H|].
    apply effect_ids_below. exact H.
  - destruct (pending id w); [|exact H].
    unfold ids_below, remove_request in *. cbn [inflight issued].
    apply Forall_forall. intros rq Hin. apply filter_In in Hin as [Hin _].
    rewrite Forall_forall in H. apply H. exact Hin.
Qed.

Lemma reachable_ids_below (API : string) (w : World) :
  reachable API w -> ids_below w.
Proof.
  intros [es ->]. unfold run.
  assert (Hgen : forall v, ids_below v -> ids_below (fold_left (step API) es v)).
  { induction es as [|e es IH]; intros v Hv; [exact Hv|].
    cbn [fold_left]. apply IH. apply step_ids_below. exact Hv. }
  apply Hgen. constructor.
Qed.

Lemma pending_below (w : World) (id : nat) :
  ids_below w -> pending id w = true -> (id < length (issued w))%nat.
Proof.
  unfold ids_below, pending. intros H Hp.
  apply existsb_exists in Hp as (rq & Hin & Hid).
  apply Nat.eqb_eq in Hid. subst id.
  rewrite Forall_forall in H. apply H. exact Hin.
Qed.

(** An event that starts a fetch runs the effect, on the page state with
    the clicked filter in place. *)
Lemma step_starts_fetch (API : string) (w : World) (e : Event) :
  starts_fetch w e = true ->
  exists st, step API w e = listing_effect API (set_page st w).
Proof.
  intros Hs. destruct e as [|slug|slug|id o]; cbn in Hs; try discriminate.
  - exists (page w). destruct w; reflexivity.
  - apply negb_true_iff in Hs. cbn [step]. rewrite Hs. eexists. reflexivity.
  - apply negb_true_iff in Hs. cbn [step]. rewrite Hs. eexists. reflexivity.
Qed.

(** ** Claims about the listing fetcher *)

(** C1, as stated, fails: the base response, arriving last, replaces the
    polygon listing although polygon is the active filter. *)
Lemma stale_response_overwrites :
  map req_url (issued stale_scenario)
  = ["https://api.agent402.io/api/v1/agents/top?limit=50";
     "https://api.agent402.io/api/v1/agents/top?limit=50&chain=base";
     "https://api.agent402.io/api/v1/agents/top?limit=50&chain=polygon"]
  /\ chain (page stale_scenario) = "polygon"
  /\ table_body (page stale_scenario) = AgentRows base_rows
  /\ table_body (page stale_scenario) <> AgentRows polygon_rows.
Proof.
  repeat split; try reflexivity.
  vm_compute. discriminate.
Qed.

(** Two requests in flight settle one after the other: the rows of the
    later one are what the page holds. *)
Lemma settle_in_turn (API : string) (w : World) (id1 id2 : nat)
    (o2 : FetchOutcome) (r1 : Response) (rows1 : list Json) :
  pending id1 w = true -> pending id2 w = true -> id1 <> id2 ->
  ok r1 = true -> body r1 = Some (JArr rows1) ->
  let w' := run API w [Settle id2 o2; Settle id1 (Responded r1)] in
  agents (page w') = rows1
  /\ loading (page w') = false
  /\ category (page w') = category (page w)
  /\ chain (page w') = chain (page w).
Proof.
  intros H1 H2 Hne Hok Hbody. unfold run. cbn [fold_left].
  rewrite (step_settle_pending API w id2 o2 H2).
  rewrite step_settle_pending
    by (rewrite pending_remove_other; assumption).
  cbn [page].
  destruct (chain_frame o2 (page w)) as (_ & Hcat & Hch).
  unfold Promise.exec at 1 3 5 7.
  rewrite (chain_ok_array r1 rows1 _ Hok Hbody). cbn.
  repeat split; assumption.
Qed.

(** C1, amended: responses are applied in the order in which they
    arrive.  No request is cancelled and no handler compares with the
    active filters: when a request [id1] is in flight, a later fetch is
    started by [e] for other filters, the later fetch settles first and
    [id1] settles after it with an array, then the listing shown
    afterwards is the array of [id1], under the filters of the later
    fetch. *)
Theorem last_response_wins (API : string) (w : World) (e : Event) (id1 : nat)
    (o2 : FetchOutcome) (r1 : Response) (rows1 : list Json) :
  reachable API w ->
  pending id1 w = true ->
  starts_fetch w e = true ->
  ok r1 = true -> body r1 = Some (JArr rows1) ->
  let id2 := length (issued w) in
  let w2 := step API w e in
  let w' := run API w2 [Settle id2 o2; Settle id1 (Responded r1)] in
  pending id1 w2 = true /\ pending id2 w2 = true
  /\ nth_error (issued w2) id2
     = Some {| req_id := id2;
               req_url := listing_url API (category (page w2)) (chain (page w2)) |}
  /\ agents (page w') = rows1
  /\ table_body (page w') = match rows1 with [] => NoAgentsRow | _ => AgentRows rows1 end
  /\ category (page w') = category (page w2)
  /\ chain (page w') = chain (page w2).
Proof.
  intros Hreach H1 Hs Hok Hbody id2 w2 w'.
  pose proof (pending_below w id1 (reachable_ids_below API w Hreach) H1) as Hlt.
  destruct (step_starts_fetch API w e Hs) as (st & Hstep).
  assert (Hp1 : pending id1 w2 = true).
  { unfold w2. rewrite Hstep. apply effect_keeps_pending. exact H1. }
  assert (Hp2 : pending id2 w2 = true).
  { unfold w2, id2. rewrite Hstep. unfold pending, listing_effect.
    cbn [inflight set_page issued]. rewrite existsb_app. cbn.
    rewrite Nat.eqb_refl. apply orb_true_r. }
  assert (Hne : id1 <> id2) by (unfold id2; lia).
  destruct (settle_in_turn API w2 id1 id2 o2 r1 rows1 Hp1 Hp2 Hne Hok Hbody)
    as (Hag & Hld & Hcat & Hch).
  repeat split; try assumption.
  - unfold w2, id2. rewrite Hstep. unfold listing_effect.
    cbn [issued set_page page with_loading category chain].
    rewrite nth_error_app2 by lia. rewrite Nat.sub_diag. reflexivity.
  - unfold table_body, w'. rewrite Hld, Hag. destruct rows1; reflexivity.
Qed.

Lemma last_response_wins_witness :
  let w := run API0 unmounted [Activate; ClickChain "base"] in
  let w2 := step API0 w (ClickChain "polygon") in
  let w' := run API0 w2 [Settle 2 (ok_json (JArr polygon_rows));
                         Settle 1 (ok_json (JArr base_rows))] in
  pending 1 w2 = true /\ pending 2 w2 = true
  /\ nth_error (issued w2) 2
     = Some {| req_id := 2;
               req_url := listing_url API0 (category (page w2)) (chain (page w2)) |}
  /\ agents (page w') = base_rows
  /\ table_body (page w') = AgentRows base_rows
  /\ category (page w') = category (page w2)
  /\ chain (page w') = chain (page w2).
Proof.
  exact (last_response_wins API0
           (run API0 unmounted [Activate; ClickChain "base"])
           (ClickChain "polygon") 1%nat (ok_json (JArr polygon_rows))
           {| status := 200; body := Some (JArr base_rows) |} base_rows
           (ex_intro _ [Activate; ClickChain "base"] eq_refl)
           eq_refl eq_refl eq_refl eq_refl).
Defined.

(** C2, as stated, fails both ways: after the network failure the banner
    is up but the earlier rows are still in the table; after the status
    500 the rows are gone but there is no message and no banner. *)
Lemma failed_fetch_not_uniform :
  (error (page network_failure_scenario) = FAILED_TO_LOAD
   /\ table_body (page network_failure_scenario) = AgentRows polygon_rows)
  /\ (table_body (page server_error_scenario) = NoAgentsRow
      /\ error (page server_error_scenario) = ""
      /\ error_banner (page server_error_scenario) = None).
Proof. repeat split. Qed.

(** C2, amended: a listing fetch that ends in a network failure sets the
    generic message, shown as the banner, and leaves the rows as they
    were; one that ends in a non-ok status other than 402 replaces the
    rows by the empty listing and leaves the message as it was.  Both
    clear the loading flag. *)
Theorem failed_fetch_outcome (API : string) (w : World) (id : nat) (o : FetchOutcome) :
  pending id w = true ->
  network_failure o || http_failure o = true ->
  let w' := step API w (Settle id o) in
  loading (page w') = false
  /\ match o with
     | NetworkError =>
         error (page w') = FAILED_TO_LOAD
         /\ error_banner (page w') = Some FAILED_TO_LOAD
         /\ agents (page w') = agents (page w)
     | Responded _ =>
         agents (page w') = []
         /\ error (page w') = error (page w)
     end.
Proof.
  intros Hp Hfail. cbv zeta. rewrite (step_settle_pending API w id o Hp).
  cbn [page]. unfold Promise.exec.
  destruct o as [|r].
  - rewrite chain_network_error. repeat split.
  - simpl in Hfail. apply andb_true_iff in Hfail as [H402 Hok].
    apply negb_true_iff in H402, Hok. apply Z.eqb_neq in H402.
    rewrite (chain_not_ok r _ H402 Hok). repeat split.
Qed.

Lemma failed_fetch_outcome_witness :
  (let w := run API0 unmounted [Activate] in
   let w' := step API0 w (Settle 0 NetworkError) in
   loading (page w') = false
   /\ error (page w') = FAILED_TO_LOAD
   /\ error_banner (page w') = Some FAILED_TO_LOAD
   /\ agents (page w') = agents (page w))
  /\ (let w := run API0 unmounted [Activate] in
      let w' := step API0 w (Settle 0 (http_status 500)) in
      loading (page w') = false
      /\ agents (page w') = []
      /\ error (page w') = error (page w)).
Proof.
  split.
  - exact (failed_fetch_outcome API0 (run API0 unmounted [Activate]) 0%nat
             NetworkError eq_refl eq_refl).
  - exact (failed_fetch_outcome API0 (run API0 unmounted [Activate]) 0%nat
             (http_status 500) eq_refl eq_refl).
Defined.

(** C3, as stated, fails: the earlier rows stay in the table, the listing
    is not the empty one. *)
Lemma non_array_body_keeps_rows :
  agents (page non_array_scenario) = polygon_rows
  /\ agents (page non_array_scenario) <> []
  /\ table_body (page non_array_scenario) <> NoAgentsRow.
Proof. repeat split; vm_compute; discriminate. Qed.

(** C3, amended: a listing fetch that returns HTTP success with a JSON
    body that is not an array leaves the listing as it was (the empty
    listing, rendered as the no-agents row, when none was shown before),
    leaves the message as it was, clears the loading flag, and its chain
    settles fulfilled: the unexpected shape crashes nothing. *)
Theorem non_array_body_ignored (API : string) (w : World) (id : nat)
    (r : Response) (j : Json) :
  pending id w = true ->
  ok r = true -> body r = Some j -> isArray j = false ->
  let w' := step API w (Settle id (Responded r)) in
  agents (page w') = agents (page w)
  /\ error (page w') = error (page w)
  /\ loading (page w') = false
  /\ (agents (page w) = [] -> table_body (page w') = NoAgentsRow)
  /\ Promise.settled (listing_chain (Responded r)) (page w) = Promise.Fulfilled tt.
Proof.
  intros Hp Hok Hbody Harr. cbv zeta.
  rewrite (step_settle_pending API w id _ Hp). cbn [page].
  unfold Promise.exec, Promise.settled.
  rewrite (chain_ok_not_array r j _ Hok Hbody Harr). cbn.
  repeat split. unfold table_body. cbn. intros ->. reflexivity.
Qed.

Lemma non_array_body_ignored_witness :
  let w := run API0 unmounted [Activate] in
  let r := {| status := 200; body := Some (JObj []) |} in
  let w' := step API0 w (Settle 0 (Responded r)) in
  agents (page w') = agents (page w)
  /\ error (page w') = error (page w)
  /\ loading (page w') = false
  /\ (agents (page w) = [] -> table_body (page w') = NoAgentsRow)
  /\ Promise.settled (listing_chain (Responded r)) (page w) = Promise.Fulfilled tt.
Proof.
  exact (non_array_body_ignored API0 (run API0 unmounted [Activate]) 0%nat
           {| status := 200; body := Some (JObj []) |} (JObj [])
           eq_refl eq_refl eq_refl eq_refl).
Defined.

(** C4: a listing fetch that resolves with status 402 leaves the empty
    listing, the fixed payment-required advisory as the message and the
    loading flag cleared; its handler sends no request, so neither a
    payment nor a retry is attempted. *)
Theorem payment_required_outcome (API : string) (w : World) (id : nat) (r : Response) :
  pending id w = true -> status r = 402 ->
  let w' := step API w (Settle id (Responded r)) in
  agents (page w') = []
  /\ error (page w') = PAID_ENDPOINT
  /\ loading (page w') = false
  /\ table_body (page w') = NoAgentsRow
  /\ error_banner (page w') = Some PAID_ENDPOINT
  /\ issued w' = issued w
  /\ (forall id', pending id' w' = true -> pending id' w = true).
Proof.
  intros Hp H402. cbv zeta.
  rewrite (step_settle_pending API w id _ Hp). cbn [page issued].
  unfold Promise.exec. rewrite (chain_payment_required r _ H402).
  repeat split.
  intros id'. unfold pending, remove_request. cbn [inflight].
  rewrite !existsb_exists. intros (rq & Hin & Hid).
  apply filter_In in Hin as [Hin _]. exists rq. split; assumption.
Qed.

Lemma payment_required_outcome_witness :
  let w := run API0 unmounted [Activate] in
  let w' := step API0 w (Settle 0 (http_status 402)) in
  agents (page w') = []
  /\ error (page w') = PAID_ENDPOINT
  /\ loading (page w') = false
  /\ table_body (page w') = NoAgentsRow
  /\ error_banner (page w') = Some PAID_ENDPOINT
  /\ issued w' = issued w
  /\ (forall id', pending id' w' = true -> pending id' w = true).
Proof.
  exact (payment_required_outcome API0 (run API0 unmounted [Activate]) 0%nat
           {| status := 402; body := Some (JObj [("detail", JStr "error")]) |}
           eq_refl eq_refl).
Defined.

(** C10, as stated, fails: the advisory set by the first attempt is still
    in [error] when the second attempt starts, and it is displayed next
    to the rows the second attempt brings. *)
Lemma error_survives_refetch :
  let started := run API0 unmounted error_survives_scenario in
  let settled := step API0 started (Settle 1 (ok_json (JArr base_rows))) in
  loading (page started) = true
  /\ error (page started) = PAID_ENDPOINT
  /\ error_banner (page started) = Some PAID_ENDPOINT
  /\ table_body (page settled) = AgentRows base_rows
  /\ error_banner (page settled) = Some PAID_ENDPOINT.
Proof. repeat split. Qed.

(** C10, amended: every event that starts a listing fetch (the activation
    and every click that changes a filter) raises the loading flag and
    sends exactly one request; it leaves the error message, and the rows,
    as they were. *)
Theorem fetch_start_raises_loading (API : string) (w : World) (e : Event) :
  starts_fetch w e = true ->
  let w' := step API w e in
  loading (page w') = true
  /\ error (page w') = error (page w)
  /\ agents (page w') = agents (page w)
  /\ length (issued w') = S (length (issued w)).
Proof.
  intros Hs. cbv zeta.
  assert (Hlen : forall v, length (issued (listing_effect API v)) = S (length (issued v))).
  { intros v. unfold listing_effect. cbn [issued].
    rewrite length_app. cbn. lia. }
  destruct e as [|slug|slug|id o]; simpl in Hs; try discriminate.
  - cbn [step]. rewrite Hlen. repeat split.
  - cbn [step]. apply negb_true_iff in Hs. rewrite Hs.
    rewrite Hlen. repeat split.
  - cbn [step]. apply negb_true_iff in Hs. rewrite Hs.
    rewrite Hlen. repeat split.
Qed.

Lemma fetch_start_raises_loading_witness :
  let w := run API0 unmounted [Activate; Settle 0 (http_status 402)] in
  let w' := step API0 w (ClickChain "base") in
  loading (page w') = true
  /\ error (page w') = error (page w)
  /\ agents (page w') = agents (page w)
  /\ length (issued w') = S (length (issued w)).
Proof.
  exact (fetch_start_raises_loading API0
           (run API0 unmounted [Activate; Settle 0 (http_status 402)])
           (ClickChain "base") eq_refl).
Defined.

(** ** Claims about the query *)

Lemma truthy_spec (s : string) : truthy s = true <-> s <> "".
Proof.
  unfold truthy. destruct (String.eqb_spec s ""); simpl; split; congruence.
Qed.

Lemma append_empty_r (s : string) : s ++ "" = s.
Proof. induction s as [|c s IH]; [reflexivity|]. cbn. rewrite IH. reflexivity. Qed.

Lemma listing_params_eq (category chain : string) :
  listing_params category chain
  = (("limit", "50")
       :: (if String.eqb category "" then [] else [("category", category)])
       ++ (if String.eqb chain "" then [] else [("chain", chain)]))%list.
Proof.
  unfold listing_params, truthy.
  destruct (String.eqb category ""), (String.eqb chain ""); reflexivity.
Qed.

(** The fixed names and the fixed value go through the serializer as
    they are. *)
Lemma serialize_fixed :
  URLSearchParams.serialize_bytes "limit" = "limit"
  /\ URLSearchParams.serialize_bytes "50" = "50"
  /\ URLSearchParams.serialize_bytes "category" = "category"
  /\ URLSearchParams.serialize_bytes "chain" = "chain".
Proof. repeat split. Qed.


(** ** Claims about the derivation code *)

Lemma sign_positive (z : Z) : 0 < z -> JsNum.sign (inject_Z z) = Gt.
Proof.
  intros H. unfold JsNum.sign, Qcompare, inject_Z. cbn.
  rewrite Z.mul_1_r. apply Z.compare_gt_iff. exact H.
Qed.

(** With a positive total the division is a division by a non-zero
    number and the percentage is the finite value [count / total * 100]. *)
Lemma pct_positive_total (count total : Z) :
  0 < total ->
  pct count total = JsNum.Num (inject_Z count / inject_Z total * inject_Z 100).
Proof.
  intros H. unfold pct.
  destruct (Z.ltb_spec 0 total) as [_|]; [|lia].
  unfold JsNum.of_Z, JsNum.div. rewrite (sign_positive total H). reflexivity.
Qed.

Lemma pct_no_total (count total : Z) :
  total <= 0 -> pct count total = JsNum.Num 0.
Proof.
  intros H. unfold pct.
  destruct (Z.ltb_spec 0 total) as [|_]; [lia|reflexivity].
Qed.

(** ** The order of the tier bar and of the legend *)

Lemma rendered_filter {A B : Type} (f : A -> option B) (key : B -> A)
    (shown : A -> bool) (l : list A) :
  (forall a, match f a with
             | Some b => shown a = true /\ key b = a
             | None => shown a = false
             end) ->
  map key (rendered (map f l)) = filter shown l.
Proof.
  intros Hf. induction l as [|a l IH]; [reflexivity|].
  cbn [map rendered filter]. specialize (Hf a).
  destruct (f a) as [b|].
  - destruct Hf as [-> <-]. cbn [rendered map]. rewrite IH. reflexivity.
  - rewrite Hf. exact IH.
Qed.

Lemma segments_in_order (order : list string) (stats : NetworkStats) :
  map seg_tier (tier_segments order stats) = filter (segment_shown stats) order.
Proof.
  apply rendered_filter. intros tier.
  unfold tier_segment, segment_shown.
  destruct (JsNum.strict_eq _ _); [reflexivity|split; reflexivity].
Qed.

Lemma legend_in_order (order : list string) (stats : NetworkStats) :
  map leg_tier (tier_legend order stats) = filter (legend_shown stats) order.
Proof.
  apply rendered_filter. intros tier.
  unfold tier_legend_entry, legend_shown.
  destruct (_ =? 0); [reflexivity|split; reflexivity].
Qed.

(** A property read by key does not depend on where the object lists
    it. *)
Lemma lookup_permutation (key : string) (obj obj' : Dist) :
  NoDup (keys obj) -> Permutation obj obj' -> lookup key obj = lookup key obj'.
Proof.
  intros Hnd Hperm. induction Hperm as [|[k v] l l' Hp IH|[k1 v1] [k2 v2] l|l l' l'' H1 IH1 H2 IH2].
  - reflexivity.
  - cbn. inversion Hnd; subst. rewrite IH by assumption. reflexivity.
  - cbn. cbn in Hnd. inversion Hnd as [|? ? Hnotin _]; subst.
    destruct (String.eqb_spec k1 key), (String.eqb_spec k2 key); try reflexivity.
    subst. exfalso. apply Hnotin. left. reflexivity.
  - rewrite IH1 by assumption. apply IH2.
    unfold keys. apply (Permutation_NoDup (l := map fst l)); [|exact Hnd].
    apply Permutation_map. exact H1.
Qed.

Lemma tier_block_permutation (order : list string) (stats stats' : NetworkStats) :
  NoDup (keys (tier_distribution stats)) ->
  Permutation (tier_distribution stats) (tier_distribution stats') ->
  total_agents stats' = total_agents stats ->
  tier_block order (Some stats') = tier_block order (Some stats).
Proof.
  intros Hnd Hperm Htot.
  assert (Hcount : forall tier, count_of tier (tier_distribution stats')
                                = count_of tier (tier_distribution stats)).
  { intros tier. unfold count_of.
    rewrite (lookup_permutation tier _ _ Hnd Hperm). reflexivity. }
  unfold tier_block, keys, tier_segments, tier_legend.
  rewrite !length_map, <- (Permutation_length Hperm).
  destruct (0 <? length (tier_distribution stats))%nat; [|reflexivity].
  f_equal. f_equal; f_equal; apply map_ext; intros tier.
  - unfold tier_segment. rewrite Hcount, Htot. reflexivity.
  - unfold tier_legend_entry. rewrite Hcount. reflexivity.
Qed.

(** C8: whatever order the object [tier_distribution] lists its keys in,
    the segments of the stacked bar and the entries of the legend come
    left to right in the order diamond, platinum, gold, silver, bronze,
    unranked (the tiers that are not shown left out), on both pages, and
    two objects with the same entries in different orders render the
    same block. *)
Theorem tier_order_canonical (stats stats' : NetworkStats) :
  NoDup (keys (tier_distribution stats)) ->
  Permutation (tier_distribution stats) (tier_distribution stats') ->
  total_agents stats' = total_agents stats ->
  let canonical :=
    ["diamond"; "platinum"; "gold"; "silver"; "bronze"; "unranked"] in
  map seg_tier (tier_segments TIER_ORDER stats) = filter (segment_shown stats) canonical
  /\ map leg_tier (tier_legend TIER_ORDER stats) = filter (legend_shown stats) canonical
  /\ map seg_tier (tier_segments HOME_TIER_ORDER stats) = filter (segment_shown stats) canonical
  /\ map leg_tier (tier_legend HOME_TIER_ORDER stats) = filter (legend_shown stats) canonical
  /\ leaderboard_tier_block (Some stats') = leaderboard_tier_block (Some stats)
  /\ home_tier_block (Some stats') = home_tier_block (Some stats).
Proof.
  intros Hnd Hperm Htot canonical.
  repeat split.
  - apply segments_in_order.
  - apply legend_in_order.
  - apply segments_in_order.
  - apply legend_in_order.
  - apply tier_block_permutation; assumption.
  - apply tier_block_permutation; assumption.
Qed.

Lemma tier_order_canonical_witness :
  let canonical :=
    ["diamond"; "platinum"; "gold"; "silver"; "bronze"; "unranked"] in
  map seg_tier (tier_segments TIER_ORDER gold_silver_stats)
  = filter (segment_shown gold_silver_stats) canonical
  /\ map leg_tier (tier_legend TIER_ORDER gold_silver_stats)
     = filter (legend_shown gold_silver_stats) canonical
  /\ map seg_tier (tier_segments HOME_TIER_ORDER gold_silver_stats)
     = filter (segment_shown gold_silver_stats) canonical
  /\ map leg_tier (tier_legend HOME_TIER_ORDER gold_silver_stats)
     = filter (legend_shown gold_silver_stats) canonical
  /\ leaderboard_tier_block (Some silver_gold_stats)
     = leaderboard_tier_block (Some gold_silver_stats)
  /\ home_tier_block (Some silver_gold_stats)
     = home_tier_block (Some gold_silver_stats).
Proof.
  apply (tier_order_canonical gold_silver_stats silver_gold_stats).
  - cbn. repeat constructor; cbn; intuition discriminate.
  - cbn. apply perm_swap.
  - reflexivity.
Defined.

(** The scenario of the spec: 40 gold and 60 silver out of 100. *)
Example gold_silver_bar :
  map (fun s => (seg_tier s, seg_count s)) (tier_segments TIER_ORDER gold_silver_stats)
  = [("gold", 40); ("silver", 60)]
  /\ Forall2 (fun s w => JsNum.same (seg_width s) (JsNum.of_Z w))
       (tier_segments TIER_ORDER gold_silver_stats) [40; 60].
Proof.
  split; [reflexivity|]. repeat constructor.
Qed.

(** ** Zero counts *)

Lemma pct_zero_count (total : Z) :
  JsNum.strict_eq (pct 0 total) (JsNum.of_Z 0) = true.
Proof.
  destruct (Z.ltb_spec 0 total) as [Hpos|Hle].
  - rewrite pct_positive_total by exact Hpos.
    unfold JsNum.strict_eq, JsNum.of_Z. apply Qeq_bool_iff.
    change (inject_Z 0) with 0%Q. unfold Qdiv. ring.
  - rewrite pct_no_total by exact Hle. reflexivity.
Qed.

Lemma button_badge_zero (field : NetworkStats -> Dist) (stats : NetworkStats)
    (selected key : string) (entries : list (string * string)) :
  count_of key (field stats) = 0 ->
  Forall (fun b => btn_slug b = key -> btn_badge b = None)
    (map (filter_button field (Some stats) selected) entries).
Proof.
  intros Hzero. apply Forall_forall. intros b Hin.
  apply in_map_iff in Hin as ([slug label] & <- & _).
  cbn. intros ->. rewrite Hzero. cbn. rewrite andb_false_r. reflexivity.
Qed.

(** C9, as stated, fails: the overview renders a card for https, with
    the count 0, a bar of width 0 and the text 0.0, and likewise for the
    chains and protocols that the statistics do not mention. *)
Lemma zero_count_card_rendered :
  count_of "https" (protocol_counts gold_silver_stats) = 0
  /\ option_map (map card_face) (protocol_cards (Some gold_silver_stats))
     = Some [("https", 0, "0.0"); ("x402", 50, "50.0");
             ("8004", 0, "0.0"); ("a2a", 0, "0.0")]
  /\ option_map (map card_face) (chain_cards (Some gold_silver_stats))
     = Some [("avalanche", 0, "0.0"); ("ethereum", 0, "0.0");
             ("base", 70, "70.0"); ("polygon", 30, "30.0")]
  /\ (exists cards, protocol_cards (Some gold_silver_stats) = Some cards
        /\ Forall2 (fun c w => JsNum.same (card_width c) (JsNum.of_Z w))
             cards [0; 50; 0; 0]).
Proof.
  repeat split.
  eexists. split; [reflexivity|]. repeat constructor.
Qed.

Lemma toFixed1_zero (q : Q) : (q == 0)%Q -> JsNum.toFixed1 (JsNum.Num q) = "0.0".
Proof.
  intros Hq. unfold JsNum.toFixed1.
  assert (Hs : JsNum.sign q = Eq) by (apply Qeq_alt; exact Hq).
  assert (Hn : JsNum.nearest_tenths (Qabs q) = 0%N).
  { unfold JsNum.nearest_tenths.
    rewrite (Qfloor_comp _ (1 # 2)); [reflexivity|].
    rewrite Hq. reflexivity. }
  rewrite Hs, Hn. reflexivity.
Qed.

Lemma pct_text_zero (total : Z) :
  pct_text 0 total = if 0 <? total then "0.0" else "0".
Proof.
  unfold pct_text. destruct (Z.ltb_spec 0 total) as [Hpos|Hle]; [|reflexivity].
  unfold JsNum.of_Z, JsNum.div. rewrite (sign_positive total Hpos).
  cbn [JsNum.mul]. apply toFixed1_zero.
  change (inject_Z 0) with 0%Q. unfold Qdiv. ring.
Qed.

(** The card of a key whose count is 0. *)
Lemma coverage_card_zero (obj : Dist) (total : Z) (entry : string * string) :
  count_of (fst entry) obj = 0 -> zero_card total (coverage_card obj total entry).
Proof.
  destruct entry as [key label]. cbn [fst]. intros Hzero.
  unfold zero_card. cbn [coverage_card card_count card_pct card_width].
  rewrite Hzero, pct_text_zero.
  split; [reflexivity|]. split; [reflexivity|].
  destruct (0 <? total); vm_compute; reflexivity.
Qed.

Lemma coverage_cards_zero (field : NetworkStats -> Dist)
    (entries : list (string * string)) (stats : NetworkStats) (cards : list Card) :
  coverage_cards field entries (Some stats) = Some cards ->
  map card_key cards = map fst entries
  /\ Forall (fun c => count_of (card_key c) (field stats) = 0 ->
                      zero_card (total_agents stats) c) cards.
Proof.
  unfold coverage_cards.
  destruct (0 <? length (keys (field stats)))%nat; [|discriminate].
  intros [= <-]. split.
  - rewrite map_map. apply map_ext. intros [key label]. reflexivity.
  - apply Forall_forall. intros c Hin.
    apply in_map_iff in Hin as ([key label] & <- & _).
    cbn [coverage_card card_key]. intros Hzero.
    apply (coverage_card_zero (field stats) (total_agents stats) (key, label)).
    exact Hzero.
Qed.

(** C9, amended: an entry whose count is 0 is left out where the code
    filters: a tier has no segment in the stacked bar and no entry in the
    legend, on both pages, and the filter button of a chain or of a
    category carries no count badge.  The coverage cards of the overview
    are not filtered: each section that is shown has one card for each of
    its four fixed keys, whatever the counts, and the card of a key whose
    count is 0 shows the count 0, a bar of width 0 and the text 0.0, or
    the text 0 when the total is not positive. *)
Theorem zero_count_suppressed (d : Dimension) (stats : NetworkStats)
    (st : PageState) (key : string) :
  count_of key (dimension_counts d stats) = 0 ->
  match d with
  | TierDim =>
      ~ In key (map seg_tier (tier_segments TIER_ORDER stats))
      /\ ~ In key (map leg_tier (tier_legend TIER_ORDER stats))
      /\ ~ In key (map seg_tier (tier_segments HOME_TIER_ORDER stats))
      /\ ~ In key (map leg_tier (tier_legend HOME_TIER_ORDER stats))
  | ChainDim =>
      Forall (fun b => btn_slug b = key -> btn_badge b = None)
        (chain_buttons (Some stats) st)
  | CategoryDim =>
      Forall (fun b => btn_slug b = key -> btn_badge b = None)
        (category_buttons (Some stats) st)
  end
  /\ option_map (map card_key) (protocol_cards (Some stats))
     = (if (0 <? length (keys (protocol_counts stats)))%nat
        then Some ["https"; "x402"; "8004"; "a2a"] else None)
  /\ option_map (map card_key) (chain_cards (Some stats))
     = (if (0 <? length (keys (chain_distribution stats)))%nat
        then Some ["avalanche"; "ethereum"; "base"; "polygon"] else None)
  /\ (forall cards, protocol_cards (Some stats) = Some cards ->
      Forall (fun c => count_of (card_key c) (protocol_counts stats) = 0 ->
                       zero_card (total_agents stats) c) cards)
  /\ (forall cards, chain_cards (Some stats) = Some cards ->
      Forall (fun c => count_of (card_key c) (chain_distribution stats) = 0 ->
                       zero_card (total_agents stats) c) cards).
Proof.
  intros Hzero. split; [|split; [|split; [|split]]].
  - destruct d; cbn [dimension_counts] in Hzero.
    + rewrite !segments_in_order, !legend_in_order.
      assert (Hseg : segment_shown stats key = false).
      { unfold segment_shown. rewrite Hzero, pct_zero_count. reflexivity. }
      assert (Hleg : legend_shown stats key = false).
      { unfold legend_shown. rewrite Hzero. reflexivity. }
      repeat split; intros Hin; apply filter_In in Hin as [_ Hin]; congruence.
    + apply button_badge_zero. exact Hzero.
    + apply button_badge_zero. exact Hzero.
  - unfold protocol_cards, coverage_cards.
    destruct (0 <? length (keys (protocol_counts stats)))%nat; reflexivity.
  - unfold chain_cards, coverage_cards.
    destruct (0 <? length (keys (chain_distribution stats)))%nat; reflexivity.
  - intros cards Hcards.
    apply (coverage_cards_zero protocol_counts PROTOCOLS stats cards Hcards).
  - intros cards Hcards.
    apply (coverage_cards_zero chain_distribution HOME_CHAINS stats cards Hcards).
Qed.

Lemma zero_count_suppressed_witness :
  (~ In "diamond" (map seg_tier (tier_segments TIER_ORDER gold_silver_stats))
   /\ ~ In "diamond" (map leg_tier (tier_legend TIER_ORDER gold_silver_stats))
   /\ ~ In "diamond" (map seg_tier (tier_segments HOME_TIER_ORDER gold_silver_stats))
   /\ ~ In "diamond" (map leg_tier (tier_legend HOME_TIER_ORDER gold_silver_stats)))
  /\ Forall (fun b => btn_slug b = "ethereum" -> btn_badge b = None)
       (chain_buttons (Some gold_silver_stats) initial_page)
  /\ Forall (fun b => btn_slug b = "gaming" -> btn_badge b = None)
       (category_buttons (Some gold_silver_stats) initial_page)
  /\ Forall (fun c => count_of (card_key c) (protocol_counts gold_silver_stats) = 0 ->
                      zero_card (total_agents gold_silver_stats) c)
       (map (coverage_card (protocol_counts gold_silver_stats)
               (total_agents gold_silver_stats)) PROTOCOLS)
  /\ Forall (fun c => count_of (card_key c) (chain_distribution no_total_stats) = 0 ->
                      zero_card (total_agents no_total_stats) c)
       (map (coverage_card (chain_distribution no_total_stats)
               (total_agents no_total_stats)) HOME_CHAINS).
Proof.
  split; [|split; [|split; [|split]]].
  - exact (proj1 (zero_count_suppressed TierDim gold_silver_stats initial_page
                    "diamond" eq_refl)).
  - exact (proj1 (zero_count_suppressed ChainDim gold_silver_stats initial_page
                    "ethereum" eq_refl)).
  - exact (proj1 (zero_count_suppressed CategoryDim gold_silver_stats initial_page
                    "gaming" eq_refl)).
  - exact (proj1 (proj2 (proj2 (proj2
             (zero_count_suppressed TierDim gold_silver_stats initial_page
                "diamond" eq_refl)))) _ eq_refl).
  - exact (proj2 (proj2 (proj2 (proj2
             (zero_count_suppressed TierDim no_total_stats initial_page
                "diamond" eq_refl)))) _ eq_refl).
Defined.

(** Without a total the text of a card is 0, also for a count that is
    not 0, and the bar has the width 0. *)
Example no_total_cards :
  option_map (map card_face) (chain_cards (Some no_total_stats))
  = Some [("avalanche", 0, "0"); ("ethereum", 0, "0"); ("base", 4, "0");
          ("polygon", 0, "0")].
Proof. reflexivity. Qed.

(** The badges of the scenario: base and polygon carry their counts, the
    other chains carry none. *)
Example gold_silver_badges :
  map (fun b => (btn_slug b, btn_badge b))
    (chain_buttons (Some gold_silver_stats) initial_page)
  = [("", None); ("avalanche", None); ("ethereum", None);
     ("base", Some 70); ("polygon", Some 30)].
Proof. reflexivity. Qed.

(** ** Bar widths *)

Lemma min_100_at_most (x : JsNum.t) :
  x <> JsNum.NaN -> JsNum.at_most 100 (JsNum.min (JsNum.of_Z 100) x).
Proof.
  intros Hnan. destruct x as [q| | |]; cbn; try exact I; try congruence.
  - destruct (q ?= inject_Z 100)%Q eqn:E; cbn.
    + apply Qle_refl.
    + apply Qlt_le_weak. exact E.
    + apply Qle_refl.
  - apply Qle_refl.
Qed.

(** The score bar of a row is never wider than 100. *)
Lemma score_bar_clamped (score : JsNum.t) :
  score <> JsNum.NaN -> JsNum.at_most 100 (score_width (ScoreBar score)).
Proof. apply min_100_at_most. Qed.

(** C5: the statistics [inconsistent_stats] report 25 gold agents out of
    a total of 10.  On both pages the gold segment of the tier bar gets
    the width 250, above 100: the tier segments take the percentage as it
    is, while the bar of the coverage card for the same counts is held
    at 100. *)
Theorem tier_segment_not_clamped :
  map (fun s => (seg_tier s, seg_count s)) (tier_segments TIER_ORDER inconsistent_stats)
  = [("gold", 25)]
  /\ Forall (fun s => JsNum.same (seg_width s) (JsNum.of_Z 250))
       (tier_segments TIER_ORDER inconsistent_stats)
  /\ ~ Forall (fun s => JsNum.at_most 100 (seg_width s))
         (tier_segments TIER_ORDER inconsistent_stats)
  /\ ~ Forall (fun s => JsNum.at_most 100 (seg_width s))
         (tier_segments HOME_TIER_ORDER inconsistent_stats)
  /\ (exists cards, chain_cards (Some inconsistent_stats) = Some cards
        /\ map card_face cards
           = [("avalanche", 0, "0.0"); ("ethereum", 0, "0.0");
              ("base", 25, "250.0"); ("polygon", 0, "0.0")]
        /\ Forall2 (fun c w => JsNum.same (card_width c) (JsNum.of_Z w))
             cards [0; 0; 100; 0]).
Proof.
  split; [reflexivity|]. split; [repeat constructor|].
  split; [|split].
  - intros H. inversion H as [|s l Hs _]; subst. vm_compute in Hs.
    apply Hs. reflexivity.
  - intros H. inversion H as [|s l Hs _]; subst. vm_compute in Hs.
    apply Hs. reflexivity.
  - eexists. split; [reflexivity|]. split; [reflexivity|]. repeat constructor.
Qed.

(** ** Printing with one decimal and reading back *)

Lemma uint_string_digits (d : Decimal.uint) :
  JsNum.all_digits (NilEmpty.string_of_uint d) = true.
Proof. induction d; cbn; try rewrite IHd; reflexivity. Qed.

Lemma decimal_digits (n : N) :
  JsNum.all_digits (JsNum.decimal n) = true
  /\ exists c rest, JsNum.decimal n = String c rest /\ JsNum.is_digit c = true.
Proof.
  unfold JsNum.decimal.
  destruct (N.to_uint n) as [|d|d|d|d|d|d|d|d|d|d] eqn:E; cbn;
    (split; [try reflexivity; try (rewrite uint_string_digits; reflexivity)
            | eexists; eexists; split; reflexivity]).
Qed.

Lemma digits_value_decimal (n : N) : JsNum.digits_value (JsNum.decimal n) = n.
Proof.
  unfold JsNum.decimal, JsNum.digits_value.
  pose proof (DecimalN.Unsigned.of_to n) as Hn.
  destruct (N.to_uint n) as [|d|d|d|d|d|d|d|d|d|d] eqn:E;
    [cbn in *; exact Hn | ..];
    (change (NilZero.string_of_uint ?x) with (NilEmpty.string_of_uint x);
     rewrite NilEmpty.usu; exact Hn).
Qed.

Lemma span_digits_app (s rest : string) :
  JsNum.all_digits s = true ->
  (forall c r, rest = String c r -> JsNum.is_digit c = false) ->
  JsNum.span_digits (s ++ rest) = (s, rest).
Proof.
  intros Hs Hrest. induction s as [|c s IH].
  - cbn. destruct rest as [|c r]; [reflexivity|].
    cbn. rewrite (Hrest c r eq_refl). reflexivity.
  - cbn in Hs. apply andb_true_iff in Hs as [Hc Hs].
    cbn. rewrite Hc, (IH Hs). reflexivity.
Qed.

Lemma digit_char_spec (n : N) :
  JsNum.is_digit (JsNum.digit_char n) = true
  /\ JsNum.digits_value (String (JsNum.digit_char n) "") = (n mod 10)%N.
Proof.
  unfold JsNum.digit_char.
  assert (H : (n mod 10 < 10)%N) by (apply N.mod_lt; discriminate).
  destruct (n mod 10)%N as [|p]; [split; reflexivity|].
  do 4 (destruct p as [p|p|]; try lia; try (split; reflexivity)).
Qed.

Lemma digit_not_sign (c : ascii) :
  JsNum.is_digit c = true ->
  Ascii.eqb c "-" = false /\ Ascii.eqb c "+" = false /\ Ascii.eqb c "." = false
  /\ JsNum.is_space c = false.
Proof.
  intros H. repeat split.
  - destruct (Ascii.eqb_spec c "-"); [subst; discriminate|reflexivity].
  - destruct (Ascii.eqb_spec c "+"); [subst; discriminate|reflexivity].
  - destruct (Ascii.eqb_spec c "."); [subst; discriminate|reflexivity].
  - unfold JsNum.is_digit in H. unfold JsNum.is_space.
    apply andb_true_iff in H as [H1 H2]. apply N.leb_le in H1.
    destruct (N.leb_spec 9 (N_of_ascii c)), (N.leb_spec (N_of_ascii c) 13),
      (N.eqb_spec (N_of_ascii c) 32); cbn; try reflexivity; lia.
Qed.

Lemma digit_not_infinity (c : ascii) (s : string) :
  JsNum.is_digit c = true -> String.prefix "Infinity" (String c s) = false.
Proof.
  intros H.
  change (String.prefix "Infinity" (String c s))
    with (if ascii_dec "I" c then String.prefix "nfinity" s else false).
  destruct (ascii_dec "I" c) as [<-|]; [discriminate|reflexivity].
Qed.

(** The digits of [toFixed1], read as an unsigned literal. *)
Lemma parse_unsigned_fixed (m n : N) :
  JsNum.parse_unsigned
    (JsNum.decimal m ++ String "." (String (JsNum.digit_char n) ""))
  = Some (inject_Z (Z.of_N m) + inject_Z (Z.of_N (n mod 10)) / inject_Z 10)%Q.
Proof.
  destruct (decimal_digits m) as (Hall & c & rest & Hdec & Hc).
  destruct (digit_char_spec n) as (Hd & Hval).
  unfold JsNum.parse_unsigned.
  rewrite span_digits_app; [|exact Hall|intros ? ? [= <- _]; reflexivity].
  cbn [Ascii.eqb Bool.eqb]. cbn [JsNum.span_digits]. rewrite Hd.
  rewrite digits_value_decimal, Hval, Hdec. reflexivity.
Qed.

(** What [toFixed(1)] prints for a finite number reads back as a finite
    number. *)
Lemma parseFloat_toFixed1 (q : Q) :
  exists r : Q, JsNum.parseFloat (JsNum.toFixed1 (JsNum.Num q)) = JsNum.Num r.
Proof.
  unfold JsNum.toFixed1.
  set (n := JsNum.nearest_tenths (Qabs q)).
  pose proof (parse_unsigned_fixed (n / 10) n) as Hparse.
  destruct (decimal_digits (n / 10)) as (_ & c & rest & Hdec & Hc).
  destruct (digit_not_sign c Hc) as (Hm & Hp & _ & Hsp).
  assert (Hmag : forall s, JsNum.parse_magnitude (String c s)
                           = option_map JsNum.Num (JsNum.parse_unsigned (String c s))).
  { intros s. unfold JsNum.parse_magnitude.
    rewrite (digit_not_infinity c s Hc). reflexivity. }
  rewrite Hdec in *. cbn [append] in *.
  destruct (JsNum.sign q); unfold JsNum.parseFloat; cbn [append JsNum.skip_spaces].
  - rewrite Hsp, Hm, Hp, Hmag, Hparse. eexists. reflexivity.
  - change (JsNum.is_space "-") with false. cbn [Ascii.eqb Bool.eqb].
    rewrite Hmag, Hparse. eexists. reflexivity.
  - rewrite Hsp, Hm, Hp, Hmag, Hparse. eexists. reflexivity.
Qed.

(** The bar of a coverage card is never wider than 100. *)
Lemma coverage_card_clamped (obj : Dist) (total : Z) (entry : string * string) :
  JsNum.at_most 100 (card_width (coverage_card obj total entry)).
Proof.
  destruct entry as [key label]. cbn [coverage_card card_width].
  apply min_100_at_most. unfold pct_text.
  destruct (Z.ltb_spec 0 total) as [Hpos|Hle].
  - unfold JsNum.of_Z, JsNum.div. rewrite (sign_positive total Hpos).
    cbn [JsNum.mul].
    destruct (parseFloat_toFixed1
                (inject_Z (count_of key obj) / inject_Z total * inject_Z 100))
      as [r ->].
    discriminate.
  - discriminate.
Qed.

(** * Further properties *)

(** ** The listing fetcher over a whole run *)

Lemma run_app (API : string) (w : World) (es es' : list Event) :
  run API w (es ++ es') = run API (run API w es) es'.
Proof. unfold run. apply fold_left_app. Qed.

Lemma run_cons (API : string) (w : World) (e : Event) (es : list Event) :
  run API w (e :: es) = run API (step API w e) es.
Proof. reflexivity. Qed.

(** An invariant of the steps holds in every reachable world. *)
Lemma reachable_ind (API : string) (P : World -> Prop) :
  P unmounted ->
  (forall w e, P w -> P (step API w e)) ->
  forall w, reachable API w -> P w.
Proof.
  intros H0 Hstep w [es ->].
  assert (Hgen : forall v, P v -> P (run API v es)).
  { induction es as [|e es IH]; intros v Hv; [exact Hv|].
    rewrite run_cons. apply IH, Hstep, Hv. }
  apply Hgen, H0.
Qed.

Ltac by_reachability :=
  match goal with
  | |- forall w, reachable ?API w -> @?P w => apply (reachable_ind API P)
  end.

Lemma reachable_step (API : string) (w : World) (e : Event) :
  reachable API w -> reachable API (step API w e).
Proof.
  intros [es ->]. exists (es ++ [e])%list. rewrite run_app. reflexivity.
Qed.

(** What a step does to the log of requests, in the two cases. *)
Lemma step_issued (API : string) (w : World) (e : Event) :
  issued (step API w e)
  = if starts_fetch w e
    then (issued w
            ++ [{| req_id := length (issued w);
                   req_url := listing_url API (category (page (step API w e)))
                                (chain (page (step API w e))) |}])%list
    else issued w.
Proof.
  destruct e as [|slug|slug|id o]; cbn [step starts_fetch].
  - reflexivity.
  - destruct (String.eqb slug (category (page w))); reflexivity.
  - destruct (String.eqb slug (chain (page w))); reflexivity.
  - destruct (pending id w); reflexivity.
Qed.

(** X1: a run sends exactly one request for each event that starts a
    fetch, the activation and the clicks that change a filter, and none
    for any other event: a click on the filter that is already selected
    and the arrival of a response send nothing. *)
Theorem one_request_per_fetch_start (API : string) (w : World) (es : list Event) :
  length (issued (run API w es)) = (length (issued w) + fetch_starts API w es)%nat.
Proof.
  revert w. induction es as [|e es IH]; intros w.
  - cbn. lia.
  - rewrite run_cons, IH. cbn [fetch_starts]. rewrite step_issued.
    destruct (starts_fetch w e); [rewrite length_app; cbn|]; lia.
Qed.

Lemma last_url_snoc (w : World) (l : list Request) (rq : Request) :
  issued w = (l ++ [rq])%list -> last_url w = Some (req_url rq).
Proof. unfold last_url. intros ->. rewrite rev_app_distr. reflexivity. Qed.

(** X2: the query follows the filters.  In every reachable world the
    request sent last asks for the category and the chain that are
    selected now; and as long as no request has been sent, both filters
    are still at their initial value, all. *)
Theorem last_request_matches_filters (API : string) (w : World) :
  reachable API w ->
  match last_url w with
  | Some url => url = listing_url API (category (page w)) (chain (page w))
  | None => category (page w) = "" /\ chain (page w) = ""
  end.
Proof.
  revert w. by_reachability.
  - cbn. split; reflexivity.
  - intros w e IH.
    destruct (starts_fetch w e) eqn:Hs.
    + pose proof (step_issued API w e) as Hi. rewrite Hs in Hi.
      rewrite (last_url_snoc _ _ _ Hi). reflexivity.
    + assert (Hsame : issued (step API w e) = issued w
                      /\ category (page (step API w e)) = category (page w)
                      /\ chain (page (step API w e)) = chain (page w)).
      { destruct e as [|slug|slug|id o]; cbn in Hs; try discriminate.
        - apply negb_false_iff in Hs. cbn [step]. rewrite Hs. repeat split.
        - apply negb_false_iff in Hs. cbn [step]. rewrite Hs. repeat split.
        - cbn [step]. destruct (pending id w); [|repeat split].
          cbn [issued page].
          destruct (chain_frame o (page w)) as (_ & Hc & Hh). repeat split; assumption. }
      destruct Hsame as (Hi & Hc & Hh).
      unfold last_url in *. rewrite Hi, Hc, Hh. exact IH.
Qed.

Lemma last_request_matches_filters_witness :
  match last_url (run API0 unmounted [Activate; ClickChain "base"; ClickCategory "defi"]) with
  | Some url =>
      url = listing_url API0
              (category (page (run API0 unmounted
                                 [Activate; ClickChain "base"; ClickCategory "defi"])))
              (chain (page (run API0 unmounted
                              [Activate; ClickChain "base"; ClickCategory "defi"])))
  | None =>
      category (page (run API0 unmounted
                        [Activate; ClickChain "base"; ClickCategory "defi"])) = ""
      /\ chain (page (run API0 unmounted
                        [Activate; ClickChain "base"; ClickCategory "defi"])) = ""
  end.
Proof.
  exact (last_request_matches_filters API0
           (run API0 unmounted [Activate; ClickChain "base"; ClickCategory "defi"])
           (ex_intro _ [Activate; ClickChain "base"; ClickCategory "defi"] eq_refl)).
Defined.

(** The message after one chain: the one before it, or one of the two
    fixed messages. *)
Lemma chain_error (o : FetchOutcome) (st : PageState) :
  let st' := Promise.exec (listing_chain o) st in
  error st' = error st \/ error st' = PAID_ENDPOINT \/ error st' = FAILED_TO_LOAD.
Proof.
  destruct o as [|r]; [right; right; reflexivity|].
  unfold_chain.
  destruct (status r =? 402); [right; left; reflexivity|].
  destruct (ok r); [|left; reflexivity].
  destruct (body r) as [j|]; [|right; right; reflexivity].
  destruct j; left; reflexivity.
Qed.

Lemma step_error (API : string) (w : World) (e : Event) :
  error (page (step API w e)) = error (page w)
  \/ error (page (step API w e)) = PAID_ENDPOINT
  \/ error (page (step API w e)) = FAILED_TO_LOAD.
Proof.
  destruct e as [|slug|slug|id o]; cbn [step].
  - left; reflexivity.
  - destruct (String.eqb slug (category (page w))); left; reflexivity.
  - destruct (String.eqb slug (chain (page w))); left; reflexivity.
  - destruct (pending id w); [|left; reflexivity].
    cbn [page]. apply chain_error.
Qed.

(** X3: the error banner never goes away.  Once a message is up, it is
    up after every further run of events, whatever they are: later
    filter changes and later successful responses do not take it down,
    they can only replace it by the other message. *)
Theorem error_banner_never_removed (API : string) (w : World) (es : list Event) :
  error (page w) <> "" ->
  error (page (run API w es)) <> ""
  /\ exists msg, error_banner (page (run API w es)) = Some msg.
Proof.
  intros Hw.
  assert (Hne : error (page (run API w es)) <> "").
  { revert w Hw. induction es as [|e es IH]; intros w Hw; [exact Hw|].
    rewrite run_cons. apply IH.
    destruct (step_error API w e) as [-> | [-> | ->]];
      [exact Hw | discriminate | discriminate]. }
  split; [exact Hne|].
  exists (error (page (run API w es))). unfold error_banner.
  apply truthy_spec in Hne. rewrite Hne. reflexivity.
Qed.

Lemma error_banner_never_removed_witness :
  error (page (run API0 (run API0 unmounted [Activate; Settle 0 NetworkError])
                 [ClickChain "base"; Settle 1 (ok_json (JArr base_rows))])) <> ""
  /\ exists msg,
      error_banner
        (page (run API0 (run API0 unmounted [Activate; Settle 0 NetworkError])
                 [ClickChain "base"; Settle 1 (ok_json (JArr base_rows))]))
      = Some msg.
Proof.
  apply (error_banner_never_removed API0
           (run API0 unmounted [Activate; Settle 0 NetworkError])
           [ClickChain "base"; Settle 1 (ok_json (JArr base_rows))]).
  vm_compute. discriminate.
Defined.

(** X4: in every reachable world the message is the empty string, the
    payment advisory or the failure message; nothing the server sends
    ends up in the banner. *)
Theorem error_is_fixed_text (API : string) (w : World) :
  reachable API w -> known_error (error (page w)).
Proof.
  revert w. by_reachability.
  - left. reflexivity.
  - intros w e IH. unfold known_error.
    destruct (step_error API w e) as [-> | [-> | ->]]; [exact IH | auto | auto].
Qed.

Lemma error_is_fixed_text_witness :
  known_error
    (error (page (run API0 unmounted [Activate; Settle 0 (http_status 402)]))).
Proof.
  exact (error_is_fixed_text API0
           (run API0 unmounted [Activate; Settle 0 (http_status 402)])
           (ex_intro _ [Activate; Settle 0 (http_status 402)] eq_refl)).
Defined.

(** X5: the loading row does not outlive the requests.  In a reachable
    world where a request has been sent and none is in flight any more,
    the loading flag is down and the table shows rows or the no-agents
    row. *)
Theorem settled_page_not_loading (API : string) (w : World) :
  reachable API w ->
  issued w <> [] -> inflight w = [] ->
  loading (page w) = false /\ table_body (page w) <> LoadingRow.
Proof.
  intros Hr Hi Hf.
  assert (Hinv : inflight w = [] -> issued w = [] \/ loading (page w) = false).
  { clear Hi Hf. revert w Hr. by_reachability.
    - left. reflexivity.
    - intros w e IH.
      destruct e as [|slug|slug|id o]; cbn [step].
      + cbn. intros H. destruct (inflight w); discriminate.
      + destruct (String.eqb slug (category (page w))); [exact IH|].
        cbn. intros H. destruct (inflight w); discriminate.
      + destruct (String.eqb slug (chain (page w))); [exact IH|].
        cbn. intros H. destruct (inflight w); discriminate.
      + destruct (pending id w); [|exact IH].
        cbn [inflight issued page]. intros _. right.
        apply (chain_frame o (page w)). }
  destruct (Hinv Hf) as [H|H]; [contradiction|].
  split; [exact H|]. unfold table_body. rewrite H.
  destruct (agents (page w)); discriminate.
Qed.

Lemma settled_page_not_loading_witness :
  loading (page (run API0 unmounted [Activate; Settle 0 (http_status 500)])) = false
  /\ table_body (page (run API0 unmounted [Activate; Settle 0 (http_status 500)]))
     <> LoadingRow.
Proof.
  apply (settled_page_not_loading API0
           (run API0 unmounted [Activate; Settle 0 (http_status 500)])).
  - exists [Activate; Settle 0 (http_status 500)]. reflexivity.
  - vm_compute. discriminate.
  - reflexivity.
Defined.

(** ** The main path of the listing fetcher *)

(** X6: a listing fetch that returns HTTP success with a JSON array
    replaces the listing by that array, whatever was listed before:
    nothing is merged.  The message is left as it was and the loading
    flag is cleared; an empty array gives the no-agents row and a
    non-empty one gives its rows, in the order received. *)
Theorem array_replaces_listing (API : string) (w : World) (id : nat)
    (r : Response) (rows : list Json) :
  pending id w = true ->
  ok r = true -> body r = Some (JArr rows) ->
  let w' := step API w (Settle id (Responded r)) in
  agents (page w') = rows
  /\ error (page w') = error (page w)
  /\ loading (page w') = false
  /\ table_body (page w')
     = match rows with [] => NoAgentsRow | _ => AgentRows rows end
  /\ issued w' = issued w.
Proof.
  intros Hp Hok Hbody. cbv zeta.
  rewrite (step_settle_pending API w id _ Hp). cbn [page issued].
  unfold Promise.exec. rewrite (chain_ok_array r rows _ Hok Hbody).
  cbn. repeat split. unfold table_body. cbn. destruct rows; reflexivity.
Qed.

Lemma array_replaces_listing_witness :
  let w := run API0 unmounted
             [Activate; Settle 0 (ok_json (JArr polygon_rows)); ClickChain "base"] in
  let w' := step API0 w (Settle 1 (ok_json (JArr []))) in
  agents (page w') = []
  /\ error (page w') = error (page w)
  /\ loading (page w') = false
  /\ table_body (page w') = NoAgentsRow
  /\ issued w' = issued w.
Proof.
  exact (array_replaces_listing API0
           (run API0 unmounted
              [Activate; Settle 0 (ok_json (JArr polygon_rows)); ClickChain "base"])
           1%nat {| status := 200; body := Some (JArr []) |} []
           eq_refl eq_refl eq_refl).
Defined.

(** X7: a listing fetch that returns HTTP success with a body that is
    not JSON, so that [r.json()] rejects, ends like a network failure:
    the message becomes the failure message, the rows stay as they were
    and the loading flag is cleared. *)
Theorem unparsable_body_fails (API : string) (w : World) (id : nat) (r : Response) :
  pending id w = true ->
  ok r = true -> body r = None ->
  let w' := step API w (Settle id (Responded r)) in
  error (page w') = FAILED_TO_LOAD
  /\ error_banner (page w') = Some FAILED_TO_LOAD
  /\ agents (page w') = agents (page w)
  /\ loading (page w') = false
  /\ page w' = page (step API w (Settle id NetworkError)).
Proof.
  intros Hp Hok Hbody. cbv zeta.
  rewrite !(step_settle_pending API w id _ Hp). cbn [page].
  unfold Promise.exec. rewrite (chain_ok_unparsable r _ Hok Hbody).
  rewrite chain_network_error. repeat split.
Qed.

Lemma unparsable_body_fails_witness :
  let w := run API0 unmounted [Activate] in
  let w' := step API0 w (Settle 0 (Responded {| status := 200; body := None |})) in
  error (page w') = FAILED_TO_LOAD
  /\ error_banner (page w') = Some FAILED_TO_LOAD
  /\ agents (page w') = agents (page w)
  /\ loading (page w') = false
  /\ page w' = page (step API0 w (Settle 0 NetworkError)).
Proof.
  exact (unparsable_body_fails API0 (run API0 unmounted [Activate]) 0%nat
           {| status := 200; body := None |} eq_refl eq_refl eq_refl).
Defined.

(** ** The filter buttons *)

Lemma active_count_map (field : NetworkStats -> Dist) (stats : option NetworkStats)
    (selected : string) (entries : list (string * string)) :
  active_count (map (filter_button field stats selected) entries)
  = length (filter (String.eqb selected) (map fst entries)).
Proof.
  unfold active_count. induction entries as [|[slug label] l IH]; [reflexivity|].
  cbn [map filter fst filter_button btn_active].
  destruct (String.eqb selected slug); cbn [length]; rewrite IH; reflexivity.
Qed.

Lemma filter_eqb_nodup (x : string) (l : list string) :
  NoDup l ->
  length (filter (String.eqb x) l) = if existsb (String.eqb x) l then 1%nat else 0%nat.
Proof.
  intros Hnd. induction Hnd as [|y l Hnotin Hnd IH]; [reflexivity|].
  cbn [filter existsb]. destruct (String.eqb_spec x y) as [->|Hne].
  - cbn [orb length]. rewrite IH.
    destruct (existsb (String.eqb y) l) eqn:E; [|reflexivity].
    apply existsb_exists in E as (z & Hin & Hz). apply String.eqb_eq in Hz.
    subst z. contradiction.
  - cbn [orb]. exact IH.
Qed.

Lemma slugs_nodup : NoDup (map fst CHAINS) /\ NoDup (map fst CATEGORIES).
Proof.
  split; cbn; repeat constructor; cbn; intuition discriminate.
Qed.

(** X8: each row of filter buttons has one button for each entry of its
    fixed list, in that order, whatever the statistics are; the button
    drawn as active is the one of the selected slug, exactly one when
    the selection is a listed slug and none otherwise; and the first
    button of each row, all, never carries a badge. *)
Theorem filter_rows_shape (stats : option NetworkStats) (st : PageState) :
  map btn_slug (chain_buttons stats st) = map fst CHAINS
  /\ map btn_slug (category_buttons stats st) = map fst CATEGORIES
  /\ active_count (chain_buttons stats st)
     = (if existsb (String.eqb (chain st)) (map fst CHAINS) then 1 else 0)%nat
  /\ active_count (category_buttons stats st)
     = (if existsb (String.eqb (category st)) (map fst CATEGORIES) then 1 else 0)%nat
  /\ Forall (fun b => btn_active b = String.eqb (chain st) (btn_slug b))
       (chain_buttons stats st)
  /\ Forall (fun b => btn_active b = String.eqb (category st) (btn_slug b))
       (category_buttons stats st)
  /\ option_map btn_badge (hd_error (chain_buttons stats st)) = Some None
  /\ option_map btn_badge (hd_error (category_buttons stats st)) = Some None.
Proof.
  destruct slugs_nodup as [Hc Hg].
  unfold chain_buttons, category_buttons.
  rewrite !active_count_map, (filter_eqb_nodup _ _ Hc), (filter_eqb_nodup _ _ Hg).
  repeat split; try reflexivity; repeat constructor.
Qed.

Lemma step_keeps_listed (API : string) (w : World) (e : Event) :
  on_rendered_button e = true ->
  existsb (String.eqb (chain (page w))) (map fst CHAINS) = true
  /\ existsb (String.eqb (category (page w))) (map fst CATEGORIES) = true ->
  existsb (String.eqb (chain (page (step API w e)))) (map fst CHAINS) = true
  /\ existsb (String.eqb (category (page (step API w e)))) (map fst CATEGORIES) = true.
Proof.
  intros He [Hc Hg].
  destruct e as [|slug|slug|id o]; cbn [step].
  - split; assumption.
  - destruct (String.eqb slug (category (page w))); [split; assumption|].
    cbn [listing_effect page set_page with_loading with_category chain category].
    split; [exact Hc|exact He].
  - destruct (String.eqb slug (chain (page w))); [split; assumption|].
    cbn [listing_effect page set_page with_loading with_chain chain category].
    split; [exact He|exact Hg].
  - destruct (pending id w); [|split; assumption].
    cbn [page]. destruct (chain_frame o (page w)) as (_ & Hcat & Hch).
    rewrite Hcat, Hch. split; assumption.
Qed.

(** X9: as long as every click is a click on a rendered button, each of
    the two rows has exactly one active button after the run: the
    selection never leaves the listed slugs. *)
Theorem one_active_button (API : string) (es : list Event) (stats : option NetworkStats) :
  forallb on_rendered_button es = true ->
  active_count (chain_buttons stats (page (run API unmounted es))) = 1%nat
  /\ active_count (category_buttons stats (page (run API unmounted es))) = 1%nat.
Proof.
  intros Hes.
  assert (Hinv : forall w,
             existsb (String.eqb (chain (page w))) (map fst CHAINS) = true
             /\ existsb (String.eqb (category (page w))) (map fst CATEGORIES) = true ->
             existsb (String.eqb (chain (page (run API w es)))) (map fst CHAINS) = true
             /\ existsb (String.eqb (category (page (run API w es))))
                  (map fst CATEGORIES) = true).
  { induction es as [|e es IH]; intros w Hw; [exact Hw|].
    cbn [forallb] in Hes. apply andb_true_iff in Hes as [He Hes].
    rewrite run_cons. apply (IH Hes). apply step_keeps_listed; assumption. }
  destruct (Hinv unmounted (conj eq_refl eq_refl)) as [Hc Hg].
  destruct slugs_nodup as [Hnc Hng].
  unfold chain_buttons, category_buttons.
  rewrite !active_count_map, (filter_eqb_nodup _ _ Hnc), (filter_eqb_nodup _ _ Hng).
  rewrite Hc, Hg. split; reflexivity.
Qed.

Lemma one_active_button_witness :
  active_count
    (chain_buttons (Some gold_silver_stats)
       (page (run API0 unmounted [Activate; ClickChain "base"; ClickCategory "defi"])))
  = 1%nat
  /\ active_count
       (category_buttons (Some gold_silver_stats)
          (page (run API0 unmounted [Activate; ClickChain "base"; ClickCategory "defi"])))
     = 1%nat.
Proof.
  exact (one_active_button API0 [Activate; ClickChain "base"; ClickCategory "defi"]
           (Some gold_silver_stats) eq_refl).
Defined.

(** ** The statistics fetchers *)

Ltac unfold_stats_chain :=
  unfold leaderboard_stats_chain, stats_chain, Chain.catch_, Chain.then_,
    Chain.set, Chain.resolve, Chain.reject.

Lemma stats_chain_run {S A : Type} (setter : option A -> S -> S)
    (o : Outcome A) (st : S) :
  stats_chain setter o st
  = (match o with
     | Unreachable => st
     | Replied r =>
         if reply_ok r
         then match reply_body r with
              | Some a => setter (Some a) st
              | None => st
              end
         else setter None st
     end, Promise.Fulfilled tt).
Proof.
  destruct o as [|r]; [reflexivity|].
  unfold_stats_chain.
  destruct (reply_ok r); [|reflexivity].
  destruct (reply_body r); reflexivity.
Qed.

(** X10: the chain of a statistics fetch, for any slot.  A response that
    is ok and parses fills the slot; a response that is not ok empties
    the slot, also when it was filled before; a failed connection or a
    body that does not parse leaves the slot as it was.  In every case
    the chain settles fulfilled, and no message is produced. *)
Theorem stats_chain_outcome {S A : Type} (setter : option A -> S -> S)
    (o : Outcome A) (st : S) :
  snd (stats_chain setter o st) = Promise.Fulfilled tt
  /\ fst (stats_chain setter o st)
     = match o with
       | Unreachable => st
       | Replied r =>
           if reply_ok r
           then match reply_body r with
                | Some a => setter (Some a) st
                | None => st
                end
           else setter None st
       end.
Proof. rewrite stats_chain_run. split; reflexivity. Qed.

(** X11: on [LeaderboardPage] a statistics response with a status that
    is not ok puts [null] in the slot and a failed connection leaves the
    slot alone; either way, when no statistics have arrived the tier
    block is not rendered and every filter button is still there, with
    no badge on any of them. *)
Theorem leaderboard_without_stats (o : Outcome NetworkStats) (st : PageState) :
  no_delivery o = true ->
  let stats := fst (leaderboard_stats_chain o None) in
  stats = None
  /\ leaderboard_tier_block stats = None
  /\ map btn_slug (chain_buttons stats st) = map fst CHAINS
  /\ map btn_slug (category_buttons stats st) = map fst CATEGORIES
  /\ Forall (fun b => btn_badge b = None) (chain_buttons stats st)
  /\ Forall (fun b => btn_badge b = None) (category_buttons stats st).
Proof.
  intros Hno.
  assert (Hnone : fst (leaderboard_stats_chain o None) = None).
  { unfold leaderboard_stats_chain.
    rewrite stats_chain_run. cbn [fst].
    destruct o as [|r]; [reflexivity|]. cbn in Hno.
    destruct (reply_ok r); [|reflexivity].
    destruct (reply_body r); [discriminate|reflexivity]. }
  cbv zeta. rewrite Hnone. repeat split; repeat constructor.
Qed.

Lemma leaderboard_without_stats_witness :
  let stats :=
    fst (leaderboard_stats_chain
           (Replied {| reply_status := 402; reply_body := None |}) None) in
  stats = None
  /\ leaderboard_tier_block stats = None
  /\ map btn_slug (chain_buttons stats initial_page) = map fst CHAINS
  /\ map btn_slug (category_buttons stats initial_page) = map fst CATEGORIES
  /\ Forall (fun b => btn_badge b = None) (chain_buttons stats initial_page)
  /\ Forall (fun b => btn_badge b = None) (category_buttons stats initial_page).
Proof.
  exact (leaderboard_without_stats
           (Replied {| reply_status := 402; reply_body := None |})
           initial_page eq_refl).
Defined.

Lemma home_stats_chain_frame (o : Outcome NetworkStats) (st : HomeState) :
  home_payments (fst (stats_chain setStats o st)) = home_payments st.
Proof.
  rewrite stats_chain_run. cbn [fst].
  destruct o as [|r]; [reflexivity|].
  destruct (reply_ok r); [|reflexivity].
  destruct (reply_body r); reflexivity.
Qed.

Lemma home_payments_chain_frame (o : Outcome PaymentStats) (st : HomeState) :
  home_stats (fst (stats_chain setPayments o st)) = home_stats st.
Proof.
  rewrite stats_chain_run. cbn [fst].
  destruct o as [|r]; [reflexivity|].
  destruct (reply_ok r); [|reflexivity].
  destruct (reply_body r); reflexivity.
Qed.

(** X12: the two fetches of [Home] do not depend on each other.  The
    statistics response and the payments response can arrive in either
    order: the page ends in the same state, each response having written
    only its own slot. *)
Theorem home_fetches_commute (API : string) (w : HomeWorld)
    (o1 : Outcome NetworkStats) (o2 : Outcome PaymentStats) :
  home_run API w [SettleStats o1; SettlePayments o2]
  = home_run API w [SettlePayments o2; SettleStats o1]
  /\ home_payments (home (home_step API w (SettleStats o1))) = home_payments (home w)
  /\ home_stats (home (home_step API w (SettlePayments o2))) = home_stats (home w).
Proof.
  split; [|split].
  - unfold home_run. cbn [fold_left home_step].
    destruct (stats_inflight w) eqn:Hs, (payments_inflight w) eqn:Hp;
      cbn [stats_inflight payments_inflight home home_issued];
      rewrite ?Hs, ?Hp; try reflexivity.
    f_equal.
    rewrite !stats_chain_run. cbn [fst].
    destruct o1 as [|r1], o2 as [|r2];
      repeat match goal with
             | |- context [reply_ok ?r] => destruct (reply_ok r)
             | |- context [reply_body ?r] => destruct (reply_body r)
             end;
      reflexivity.
  - cbn [home_step]. destruct (stats_inflight w); [|reflexivity].
    cbn [home]. apply home_stats_chain_frame.
  - cbn [home_step]. destruct (payments_inflight w); [|reflexivity].
    cbn [home]. apply home_payments_chain_frame.
Qed.

(** X13: [Home] sends its two requests on activation, and when the
    statistics fetch does not deliver, whether the connection fails, the
    status is not ok or the body does not parse, the page degrades
    without a message: no further request is sent, the three
    statistics cards show a dash, the tier, protocol and chain sections
    are not rendered, and the payments card is untouched. *)
Theorem home_without_stats (API : string) (o : Outcome NetworkStats) :
  no_delivery o = true ->
  let w := home_step API (home_step API home_unmounted HomeActivate) (SettleStats o) in
  home_issued w = [(API ++ "/api/v1/network/stats")%string;
                   (API ++ "/api/v1/payments/stats")%string]
  /\ home_stats (home w) = None
  /\ map snd (firstn 3 (stat_cards (home w))) = [Text "—"; Text "—"; Text "—"]
  /\ home_tier_block (home_stats (home w)) = None
  /\ protocol_cards (home_stats (home w)) = None
  /\ chain_cards (home_stats (home w)) = None.
Proof.
  intros Hno. cbv zeta. cbn [home_step home_unmounted stats_inflight home home_issued app].
  assert (Hnone : home_stats
                    (fst (stats_chain setStats o
                            {| home_stats := None; home_payments := None |})) = None).
  { rewrite stats_chain_run. cbn [fst].
    destruct o as [|r]; [reflexivity|]. cbn in Hno.
    destruct (reply_ok r); [|reflexivity].
    destruct (reply_body r); [discriminate|reflexivity]. }
  unfold stat_cards. rewrite Hnone. repeat split.
Qed.

Lemma home_without_stats_witness :
  let w := home_step API0 (home_step API0 home_unmounted HomeActivate)
             (SettleStats Unreachable) in
  home_issued w = [(API0 ++ "/api/v1/network/stats")%string;
                   (API0 ++ "/api/v1/payments/stats")%string]
  /\ home_stats (home w) = None
  /\ map snd (firstn 3 (stat_cards (home w))) = [Text "—"; Text "—"; Text "—"]
  /\ home_tier_block (home_stats (home w)) = None
  /\ protocol_cards (home_stats (home w)) = None
  /\ chain_cards (home_stats (home w)) = None.
Proof.
  exact (home_without_stats API0 Unreachable eq_refl).
Defined.

(** ** The score bar *)

Lemma ge_num (q : Q) (b : Z) :
  JsNum.ge (JsNum.Num q) (JsNum.of_Z b) = Qle_bool (inject_Z b) q.
Proof.
  unfold JsNum.ge, JsNum.lt, JsNum.strict_eq, JsNum.of_Z.
  destruct (Qcompare_spec (inject_Z b) q) as [Heq|Hlt|Hgt].
  - cbn. assert (H1 : Qeq_bool q (inject_Z b) = true)
      by (apply Qeq_bool_iff; symmetry; exact Heq).
    assert (H2 : Qle_bool (inject_Z b) q = true)
      by (apply Qle_bool_iff; rewrite Heq; apply Qle_refl).
    rewrite H1, H2. reflexivity.
  - cbn. symmetry. apply Qle_bool_iff, Qlt_le_weak, Hlt.
  - cbn. destruct (Qeq_bool q (inject_Z b)) eqn:E1.
    + apply Qeq_bool_iff in E1. rewrite E1 in Hgt.
      exfalso. exact (Qlt_irrefl _ Hgt).
    + destruct (Qle_bool (inject_Z b) q) eqn:E2; [|reflexivity].
      apply Qle_bool_iff in E2. exfalso. exact (Qlt_not_le _ _ Hgt E2).
Qed.

Lemma min_100_num (r : Q) :
  JsNum.min (JsNum.of_Z 100) (JsNum.Num r)
  = if Qle_bool 100 r then JsNum.of_Z 100 else JsNum.Num r.
Proof.
  unfold JsNum.min, JsNum.of_Z, JsNum.lt.
  destruct (Qcompare_spec r (inject_Z 100)) as [Heq|Hlt|Hgt].
  - assert (H : Qle_bool 100 r = true)
      by (apply Qle_bool_iff; rewrite Heq; apply Qle_refl).
    rewrite H. reflexivity.
  - destruct (Qle_bool 100 r) eqn:E; [|reflexivity].
    apply Qle_bool_iff in E. exfalso. exact (Qlt_not_le _ _ Hlt E).
  - assert (H : Qle_bool 100 r = true)
      by (apply Qle_bool_iff, Qlt_le_weak, Hgt).
    rewrite H. reflexivity.
Qed.

(** X14: the score bar of a finite score.  The colour follows the
    thresholds 80, 60 and 40, each of them inclusive; the width is the
    score itself below 100 and 100 from there on, and nothing holds it
    at 0 from below: a negative score gives a negative width.  A score
    that is not a number gives the lowest colour and no number for the
    width. *)
Theorem score_bar_buckets (q : Q) :
  score_class (ScoreBar (JsNum.Num q))
  = (if Qle_bool 80 q then "bg-success"
     else if Qle_bool 60 q then "bg-primary"
     else if Qle_bool 40 q then "bg-warning"
     else "bg-danger")
  /\ score_width (ScoreBar (JsNum.Num q))
     = (if Qle_bool 100 q then JsNum.of_Z 100 else JsNum.Num q)
  /\ score_class (ScoreBar JsNum.NaN) = "bg-danger"
  /\ score_width (ScoreBar JsNum.NaN) = JsNum.NaN
  /\ score_text (ScoreBar JsNum.NaN) = "NaN".
Proof.
  split; [|split; [|repeat split]].
  - unfold ScoreBar. cbn [score_class]. rewrite !ge_num. reflexivity.
  - unfold ScoreBar. cbn [score_width]. apply min_100_num.
Qed.

(** ** The tier bar and its legend *)

Lemma pct_zero_iff (count total : Z) :
  0 < total ->
  JsNum.strict_eq (pct count total) (JsNum.of_Z 0) = (count =? 0).
Proof.
  intros Hpos. destruct (Z.eqb_spec count 0) as [->|Hne].
  - apply pct_zero_count.
  - rewrite (pct_positive_total count total Hpos).
    unfold JsNum.strict_eq, JsNum.of_Z.
    destruct (Qeq_bool _ _) eqn:E; [|reflexivity].
    apply Qeq_bool_iff in E. exfalso. apply Hne.
    assert (Ht : ~ (inject_Z total == 0)%Q).
    { intros Hz. unfold Qeq in Hz. cbn in Hz. lia. }
    assert (Hc : (inject_Z count
                  == inject_Z count / inject_Z total * inject_Z 100
                     * (inject_Z total / inject_Z 100))%Q).
    { field; repeat split; (exact Ht || discriminate). }
    rewrite E in Hc. unfold Qeq in Hc. cbn in Hc. lia.
Qed.


Lemma rendered_forall {A B : Type} (f : A -> option B) (P : B -> Prop) (l : list A) :
  (forall a b, In a l -> f a = Some b -> P b) ->
  Forall P (rendered (map f l)).
Proof.
  intros H. induction l as [|a l IH]; [constructor|].
  cbn [map rendered]. destruct (f a) as [b|] eqn:E.
  - constructor.
    + apply (H a b); [left; reflexivity|exact E].
    + apply IH. intros a' b' Hin. apply H. right. exact Hin.
  - apply IH. intros a' b' Hin. apply H. right. exact Hin.
Qed.

Lemma tier_colors_total (tier : string) :
  In tier ["diamond"; "platinum"; "gold"; "silver"; "bronze"; "unranked"] ->
  assoc tier colors <> None /\ assoc tier dotColors <> None.
Proof.
  cbn. intros H.
  repeat (destruct H as [<-|H]; [split; discriminate|]). contradiction.
Qed.

(** X16: what the tier block can contain.  On both pages every segment
    and every legend entry is for one of the six tiers of the fixed
    order, carries the count that the distribution gives for that tier,
    which is not 0, and has a colour class from the table; a key of the
    distribution that is not one of the six tiers is never rendered.  *)
Theorem tier_block_contents (stats : NetworkStats) :
  let six := ["diamond"; "platinum"; "gold"; "silver"; "bronze"; "unranked"] in
  let good_segment s :=
    In (seg_tier s) six
    /\ seg_count s = count_of (seg_tier s) (tier_distribution stats)
    /\ seg_count s <> 0
    /\ seg_color s <> None in
  let good_entry e :=
    In (leg_tier e) six
    /\ leg_count e = count_of (leg_tier e) (tier_distribution stats)
    /\ leg_count e <> 0
    /\ leg_dot e <> None in
  Forall good_segment (tier_segments TIER_ORDER stats)
  /\ Forall good_segment (tier_segments HOME_TIER_ORDER stats)
  /\ Forall good_entry (tier_legend TIER_ORDER stats)
  /\ Forall good_entry (tier_legend HOME_TIER_ORDER stats).
Proof.
  intros six good_segment good_entry.
  assert (Hseg : Forall good_segment (tier_segments six stats)).
  { apply rendered_forall. intros tier s Hin. unfold tier_segment.
    destruct (JsNum.strict_eq _ _) eqn:E; [discriminate|]. intros [= <-].
    unfold good_segment. cbn [seg_tier seg_count seg_color].
    repeat split; [exact Hin| |apply tier_colors_total, Hin].
    intros Hz. rewrite Hz, pct_zero_count in E. discriminate. }
  assert (Hleg : Forall good_entry (tier_legend six stats)).
  { apply rendered_forall. intros tier e Hin. unfold tier_legend_entry.
    destruct (_ =? 0) eqn:E; [discriminate|]. intros [= <-].
    unfold good_entry. cbn [leg_tier leg_count leg_dot].
    repeat split; [exact Hin| |apply tier_colors_total, Hin].
    apply Z.eqb_neq. exact E. }
  repeat split; assumption.
Qed.


(** ** The query string *)

Lemma hex_value_digit (k : nat) :
  (k < 16)%nat -> hex_value (URLSearchParams.hex_digit k) = Some k.
Proof.
  intros H. do 16 (destruct k as [|k]; [reflexivity|]). lia.
Qed.

Lemma hex_digit_not_amp (k : nat) :
  Ascii.eqb (URLSearchParams.hex_digit k) "&" = false.
Proof. do 16 (destruct k as [|k]; [reflexivity|]). reflexivity. Qed.

Lemma unreserved_plain (c : ascii) :
  URLSearchParams.unreserved c = true ->
  Ascii.eqb c "+" = false /\ Ascii.eqb c "%" = false /\ Ascii.eqb c "&" = false.
Proof.
  intros H. repeat split.
  - destruct (Ascii.eqb_spec c "+"); [subst; discriminate|reflexivity].
  - destruct (Ascii.eqb_spec c "%"); [subst; discriminate|reflexivity].
  - destruct (Ascii.eqb_spec c "&"); [subst; discriminate|reflexivity].
Qed.

(** Serializing a value and reading it back gives the value. *)
Lemma percent_decode_serialize (s : string) :
  percent_decode (URLSearchParams.serialize_bytes s) = s.
Proof.
  induction s as [|c s IH]; [reflexivity|].
  cbn [URLSearchParams.serialize_bytes].
  destruct (Ascii.eqb_spec c " ") as [->|Hsp].
  - cbn. rewrite IH. reflexivity.
  - destruct (URLSearchParams.unreserved c) eqn:Hu.
    + destruct (unreserved_plain c Hu) as (Hp & Hq & _).
      cbn [percent_decode]. rewrite Hp, Hq, IH. reflexivity.
    + unfold URLSearchParams.percent_encode. cbn [append percent_decode].
      change (Ascii.eqb "%" "+") with false. change (Ascii.eqb "%" "%") with true.
      cbn iota.
      pose proof (nat_ascii_bounded c) as Hb.
      assert (Hhi : (nat_of_ascii c / 16 < 16)%nat)
        by (apply Nat.Div0.div_lt_upper_bound; lia).
      assert (Hlo : (nat_of_ascii c mod 16 < 16)%nat)
        by (apply Nat.mod_upper_bound; lia).
      rewrite (hex_value_digit _ Hhi), (hex_value_digit _ Hlo), IH.
      rewrite <- (Nat.div_mod_eq (nat_of_ascii c) 16), ascii_nat_embedding.
      reflexivity.
Qed.

Lemma serialize_no_amp (s : string) :
  occurs "&" (URLSearchParams.serialize_bytes s) = false.
Proof.
  induction s as [|c s IH]; [reflexivity|].
  cbn [URLSearchParams.serialize_bytes].
  destruct (Ascii.eqb c " ").
  - cbn. exact IH.
  - destruct (URLSearchParams.unreserved c) eqn:Hu.
    + destruct (unreserved_plain c Hu) as (_ & _ & Ha).
      cbn [occurs]. rewrite Ha, IH. reflexivity.
    + unfold URLSearchParams.percent_encode. cbn [append occurs].
      rewrite !hex_digit_not_amp, IH. reflexivity.
Qed.

Lemma append_cancel_l (s a b : string) : s ++ a = s ++ b -> a = b.
Proof.
  induction s as [|c s IH]; cbn; [auto|]. intros [= H]. apply IH, H.
Qed.

(** Two strings without [&], each followed by nothing or by a part that
    starts with [&]: equal wholes have equal parts. *)
Lemma split_at_amp (a b t t' : string) :
  occurs "&" a = false -> occurs "&" b = false ->
  (t = "" \/ exists r, t = String "&" r) ->
  (t' = "" \/ exists r, t' = String "&" r) ->
  a ++ t = b ++ t' -> a = b /\ t = t'.
Proof.
  revert b. induction a as [|c a IH]; intros b Ha Hb Ht Ht' H.
  - destruct b as [|c b]; [split; [reflexivity|exact H]|].
    cbn in H. destruct Ht as [->|[r ->]]; [discriminate|].
    injection H as <- _. cbn in Hb. discriminate.
  - destruct b as [|c' b].
    + cbn in H. destruct Ht' as [->|[r ->]]; [discriminate|].
      injection H as -> _. cbn in Ha. discriminate.
    + cbn in H. injection H as -> H. cbn in Ha, Hb.
      apply orb_false_iff in Ha as [_ Ha]. apply orb_false_iff in Hb as [_ Hb].
      destruct (IH b Ha Hb Ht Ht' H) as [-> ->]. split; reflexivity.
Qed.

Lemma query_string_eq (category chain : string) :
  URLSearchParams.toString (listing_params category chain)
  = "limit=50"
    ++ (if String.eqb category "" then ""
        else "&category=" ++ URLSearchParams.serialize_bytes category)
    ++ (if String.eqb chain "" then ""
        else "&chain=" ++ URLSearchParams.serialize_bytes chain).
Proof.
  rewrite listing_params_eq.
  destruct serialize_fixed as (Hl & H50 & Hcat & Hch).
  destruct (String.eqb category ""), (String.eqb chain "");
    cbn [app URLSearchParams.toString]; rewrite ?Hl, ?H50, ?Hcat, ?Hch;
    cbn [append]; rewrite ?append_empty_r; reflexivity.
Qed.

Lemma chain_part_inj (h h' : string) :
  (if String.eqb h "" then "" else "&chain=" ++ URLSearchParams.serialize_bytes h)
  = (if String.eqb h' "" then "" else "&chain=" ++ URLSearchParams.serialize_bytes h') ->
  h = h'.
Proof.
  destruct (String.eqb_spec h "") as [->|Hh], (String.eqb_spec h' "") as [->|Hh'];
    cbn [append]; intros H; try reflexivity; try discriminate.
  injection H as H.
  rewrite <- (percent_decode_serialize h), <- (percent_decode_serialize h'), H.
  reflexivity.
Qed.

Lemma chain_part_tail (h : string) :
  let t := if String.eqb h "" then ""
           else "&chain=" ++ URLSearchParams.serialize_bytes h in
  t = "" \/ exists r, t = String "&" r.
Proof.
  cbv zeta. destruct (String.eqb h ""); [left; reflexivity|].
  right. eexists. reflexivity.
Qed.

(** X19: the URL of a listing request determines the filters.  Two
    selections that give the same URL are the same selection: no two
    different pairs of category and chain are sent as the same query,
    whatever bytes the slugs contain. *)
Theorem listing_url_injective (API category chain category' chain' : string) :
  listing_url API category chain = listing_url API category' chain' ->
  category = category' /\ chain = chain'.
Proof.
  unfold listing_url. rewrite !query_string_eq. intros H.
  apply append_cancel_l in H. apply (append_cancel_l "/api/v1/agents/top?") in H.
  apply (append_cancel_l "limit=50") in H.
  pose proof (chain_part_tail chain) as Ht. pose proof (chain_part_tail chain') as Ht'.
  cbv zeta in Ht, Ht'.
  destruct (String.eqb_spec category "") as [->|Hc],
           (String.eqb_spec category' "") as [->|Hc'].
  - cbn [append] in H. split; [reflexivity|apply chain_part_inj, H].
  - exfalso. cbn [append] in H.
    destruct (String.eqb chain ""); cbn [append] in H; discriminate.
  - exfalso. cbn [append] in H.
    destruct (String.eqb chain' ""); cbn [append] in H; discriminate.
  - cbn [append] in H. injection H as H.
    apply split_at_amp in H;
      [|apply serialize_no_amp|apply serialize_no_amp|exact Ht|exact Ht'].
    destruct H as [Hs Hh]. split; [|apply chain_part_inj, Hh].
    rewrite <- (percent_decode_serialize category),
      <- (percent_decode_serialize category'), Hs.
    reflexivity.
Qed.

Lemma listing_url_injective_witness :
  "de fi&x" = "de fi&x" /\ "base" = "base".
Proof.
  exact (listing_url_injective API0 "de fi&x" "base" "de fi&x" "base" eq_refl).
Defined.

(** ** The loading row with several requests in flight *)

(** X20: the loading row goes as soon as any response arrives.  With two
    requests in flight, the arrival of one of them, whatever it brings,
    clears the loading flag although the other request is still in
    flight: until that one arrives the table shows the rows of the first
    or the no-agents row, not the loading row. *)
Theorem loading_cleared_by_any_response (API : string) (w : World)
    (id1 id2 : nat) (o : FetchOutcome) :
  pending id1 w = true -> pending id2 w = true -> id1 <> id2 ->
  let w' := step API w (Settle id2 o) in
  pending id1 w' = true
  /\ loading (page w') = false
  /\ table_body (page w') <> LoadingRow.
Proof.
  intros H1 H2 Hne. cbv zeta.
  rewrite (step_settle_pending API w id2 o H2).
  rewrite pending_remove_other by exact Hne. cbn [page].
  destruct (chain_frame o (page w)) as (Hl & _ & _).
  repeat split; [exact H1|exact Hl|].
  unfold table_body. rewrite Hl.
  destruct (agents _); discriminate.
Qed.

Lemma loading_cleared_by_any_response_witness :
  let w := run API0 unmounted [Activate; ClickChain "base"] in
  let w' := step API0 w (Settle 0 (ok_json (JArr []))) in
  pending 1 w' = true
  /\ loading (page w') = false
  /\ table_body (page w') <> LoadingRow.
Proof.
  exact (loading_cleared_by_any_response API0
           (run API0 unmounted [Activate; ClickChain "base"])
           1%nat 0%nat (ok_json (JArr []))
           eq_refl eq_refl (fun H => O_S 0 (eq_sym H))).
Defined.

(** ** The rows of the table *)

Lemma rows_from_shape (i : nat) (agents : list TrustedAgent.t) :
  length (rows_from i agents) = length agents
  /\ map row_rank (rows_from i agents) = seq (i + 1) (length agents)
  /\ map row_key (rows_from i agents) = map TrustedAgent.agent_id agents.
Proof.
  revert i. induction agents as [|a l IH]; intros i; [repeat split|].
  destruct (IH (S i)) as (Hlen & Hrank & Hkey).
  cbn [rows_from length map seq agent_row_view row_rank row_key].
  rewrite Hlen, Hkey, Hrank. repeat split.
Qed.

Lemma or_else_nonempty (s : option string) (fallback : string) :
  fallback <> "" -> or_else s fallback <> "".
Proof.
  intros Hf. unfold or_else. destruct s as [v|]; [|exact Hf].
  destruct (truthy v) eqn:E; [apply truthy_spec, E|exact Hf].
Qed.

(** X21: the table keeps the listing as it is.  There is one row for
    each agent, in the order of the listing, nothing is sorted, filtered
    or merged; the rank of a row is its position, counted from 1; and no
    row has an empty title or an empty category cell: an agent without a
    name is titled by its identifier and an agent without a category
    gets a dash. *)
Theorem rows_follow_listing (agents : list TrustedAgent.t) :
  length (agent_rows agents) = length agents
  /\ map row_rank (agent_rows agents) = seq 1 (length agents)
  /\ map row_key (agent_rows agents) = map TrustedAgent.agent_id agents
  /\ Forall (fun r => row_title r <> "" /\ row_category r <> "") (agent_rows agents).
Proof.
  unfold agent_rows.
  destruct (rows_from_shape 0 agents) as (Hlen & Hrank & Hkey).
  repeat split; try assumption.
  clear Hlen Hrank Hkey.
  generalize 0%nat. induction agents as [|a l IH]; intros i; [constructor|].
  cbn [rows_from]. constructor; [|apply IH].
  cbn [agent_row_view row_title row_category].
  split; apply or_else_nonempty; discriminate.
Qed.

Lemma decimal_inj (n m : N) : JsNum.decimal n = JsNum.decimal m -> n = m.
Proof.
  intros H. rewrite <- (digits_value_decimal n), <- (digits_value_decimal m), H.
  reflexivity.
Qed.

Lemma decimal_no_minus (n : N) (s : string) : JsNum.decimal n <> String "-" s.
Proof.
  destruct (decimal_digits n) as (_ & c & rest & Hdec & Hc).
  rewrite Hdec. intros [= -> _]. discriminate.
Qed.

Lemma show_int_inj (a b : Z) : show_int a = show_int b -> a = b.
Proof.
  unfold show_int.
  destruct (Z.ltb_spec a 0) as [Ha|Ha], (Z.ltb_spec b 0) as [Hb|Hb]; intros E.
  - injection E as E. apply decimal_inj in E. lia.
  - symmetry in E. apply decimal_no_minus in E. contradiction.
  - apply decimal_no_minus in E. contradiction.
  - apply decimal_inj in E. lia.
Qed.

Lemma rows_from_in (r : Row) (i : nat) (agents : list TrustedAgent.t) :
  In r (rows_from i agents) ->
  row_href r = "/lookup?id=" ++ show_int (row_key r)
  /\ row_id r = "#" ++ show_int (row_key r).
Proof.
  revert i. induction agents as [|a l IH]; intros i; [contradiction|].
  cbn [rows_from]. intros [<-|Hin]; [split; reflexivity|].
  apply (IH (S i)), Hin.
Qed.

Lemma rows_from_links (i : nat) (agents : list TrustedAgent.t) :
  map row_href (rows_from i agents)
  = map (fun a => "/lookup?id=" ++ show_int (TrustedAgent.agent_id a)) agents.
Proof.
  revert i. induction agents as [|a l IH]; intros i; [reflexivity|].
  cbn [rows_from map agent_row_view row_href]. rewrite IH. reflexivity.
Qed.

Lemma nodup_map_injective {A B : Type} (f : A -> B) (l : list A) :
  (forall x y, f x = f y -> x = y) -> NoDup l -> NoDup (map f l).
Proof.
  intros Hinj Hnd. induction Hnd as [|x l Hnotin Hnd IH]; [constructor|].
  cbn [map]. constructor; [|exact IH].
  intros Hin. apply in_map_iff in Hin as (y & Hy & Hin).
  apply Hinj in Hy. subst y. contradiction.
Qed.

(** X22: the link of a row identifies its agent.  When the identifiers
    of a listing are safe integers, which a JSON body delivers exactly
    and a template literal prints in plain decimal, and are all
    different, so are the React keys of its rows and so are their links:
    no two rows lead to the same lookup page. *)
Theorem row_links_distinct (agents : list TrustedAgent.t) :
  Forall safe_integer (map TrustedAgent.agent_id agents) ->
  NoDup (map TrustedAgent.agent_id agents) ->
  NoDup (map row_key (agent_rows agents))
  /\ NoDup (map row_href (agent_rows agents)).
Proof.
  intros _ Hnd. unfold agent_rows.
  destruct (rows_from_shape 0 agents) as (_ & _ & Hkey).
  rewrite Hkey, rows_from_links. split; [exact Hnd|].
  rewrite <- (map_map TrustedAgent.agent_id
                (fun z => "/lookup?id=" ++ show_int z)).
  apply nodup_map_injective; [|exact Hnd].
  intros x y H. apply append_cancel_l in H. apply show_int_inj, H.
Qed.

Lemma row_links_distinct_witness :
  let agents :=
    [TrustedAgent.mk 42 (Some "Oracle") "base" (Some "defi") "gold" 71 3;
     TrustedAgent.mk (-7) None "solana" None "mythic" 12 0] in
  NoDup (map row_key (agent_rows agents))
  /\ NoDup (map row_href (agent_rows agents)).
Proof.
  apply (row_links_distinct
           [TrustedAgent.mk 42 (Some "Oracle") "base" (Some "defi") "gold" 71 3;
            TrustedAgent.mk (-7) None "solana" None "mythic" 12 0]).
  - cbn. repeat constructor; unfold safe_integer; lia.
  - cbn. repeat constructor; cbn; intuition discriminate.
Defined.

(** The two rows of the witness, as rendered. *)
Example two_rows :
  map (fun r => (row_rank r, row_title r, row_id r, row_chain_class r,
                 row_category r, row_tier_icon r, row_href r))
    (agent_rows
       [TrustedAgent.mk 42 (Some "Oracle") "base" (Some "defi") "gold" 71 3;
        TrustedAgent.mk (-7) None "solana" None "mythic" 12 0])
  = [(1%nat, "Oracle", "#42", "capitalize text-blue-300", "defi", "🏆",
      "/lookup?id=42");
     (2%nat, "Agent #-7", "#-7", "capitalize text-purple-400", "—", "",
      "/lookup?id=-7")].
Proof. reflexivity. Qed.

(** ** [URLSearchParams.set] *)

Lemma get_filter_other (name other : string) (p : URLSearchParams.t) :
  other <> name ->
  URLSearchParams.get other
    (filter (fun kv => negb (String.eqb (fst kv) name)) p)
  = URLSearchParams.get other p.
Proof.
  intros Hne. induction p as [|[k v] p IH]; [reflexivity|].
  cbn [filter fst]. destruct (String.eqb_spec k name) as [->|Hk]; cbn [negb].
  - cbn [URLSearchParams.get]. destruct (String.eqb_spec name other); [congruence|].
    exact IH.
  - cbn [URLSearchParams.get]. rewrite IH. reflexivity.
Qed.

Lemma count_filter_none (name : string) (p : URLSearchParams.t) :
  count_named name (filter (fun kv => negb (String.eqb (fst kv) name)) p) = 0%nat.
Proof.
  unfold count_named. induction p as [|[k v] p IH]; [reflexivity|].
  cbn [filter fst]. destruct (String.eqb k name) eqn:E; cbn [negb]; [exact IH|].
  cbn [filter fst]. rewrite E. exact IH.
Qed.

Lemma set_first_spec (name value : string) (p : URLSearchParams.t) :
  URLSearchParams.has name p = true ->
  URLSearchParams.get name (URLSearchParams.set_first name value p) = Some value
  /\ count_named name (URLSearchParams.set_first name value p) = 1%nat
  /\ forall other, other <> name ->
       URLSearchParams.get other (URLSearchParams.set_first name value p)
       = URLSearchParams.get other p.
Proof.
  unfold URLSearchParams.has, count_named.
  induction p as [|[k v] p IH]; [discriminate|].
  cbn [existsb fst URLSearchParams.set_first].
  destruct (String.eqb_spec k name) as [->|Hk]; cbn [orb].
  - intros _. cbn [URLSearchParams.get filter fst]. rewrite String.eqb_refl.
    cbn [length]. fold (count_named name
                          (filter (fun kv => negb (String.eqb (fst kv) name)) p)).
    rewrite count_filter_none. repeat split.
    intros other Hne. destruct (String.eqb_spec name other); [congruence|].
    apply get_filter_other, Hne.
  - intros H. destruct (IH H) as (Hget & Hcount & Hother).
    cbn [URLSearchParams.get filter fst].
    destruct (String.eqb_spec k name); [contradiction|].
    repeat split; [exact Hget|exact Hcount|].
    intros other Hne. rewrite (Hother other Hne). reflexivity.
Qed.

Lemma append_spec (name value : string) (p : URLSearchParams.t) :
  URLSearchParams.has name p = false ->
  URLSearchParams.get name (p ++ [(name, value)])%list = Some value
  /\ count_named name (p ++ [(name, value)])%list = 1%nat
  /\ forall other, other <> name ->
       URLSearchParams.get other (p ++ [(name, value)])%list
       = URLSearchParams.get other p.
Proof.
  unfold URLSearchParams.has, count_named.
  induction p as [|[k v] p IH]; cbn [existsb fst app].
  - intros _. cbn. rewrite String.eqb_refl. repeat split.
    intros other Hne. destruct (String.eqb_spec name other); [congruence|reflexivity].
  - intros H. apply orb_false_iff in H as [Hk H].
    destruct (IH H) as (Hget & Hcount & Hother).
    cbn [URLSearchParams.get filter fst]. rewrite Hk.
    repeat split; [exact Hget|exact Hcount|].
    intros other Hne. rewrite (Hother other Hne). reflexivity.
Qed.

Lemma has_count (name : string) (p : URLSearchParams.t) :
  URLSearchParams.has name p = negb (Nat.eqb (count_named name p) 0).
Proof.
  unfold URLSearchParams.has, count_named.
  induction p as [|kv p IH]; [reflexivity|].
  cbn [existsb filter]. destruct (String.eqb (fst kv) name); [reflexivity|exact IH].
Qed.

(** X23: [params.set(name, value)] on any query.  Afterwards the query
    has exactly one pair called [name], reading [name] gives [value],
    and every other name reads as before: a parameter is never doubled,
    also when the query had it several times. *)
Theorem params_set_get (name value : string) (p : URLSearchParams.t) :
  URLSearchParams.get name (URLSearchParams.set name value p) = Some value
  /\ URLSearchParams.has name (URLSearchParams.set name value p) = true
  /\ count_named name (URLSearchParams.set name value p) = 1%nat
  /\ forall other, other <> name ->
       URLSearchParams.get other (URLSearchParams.set name value p)
       = URLSearchParams.get other p.
Proof.
  assert (H : URLSearchParams.get name (URLSearchParams.set name value p) = Some value
              /\ count_named name (URLSearchParams.set name value p) = 1%nat
              /\ forall other, other <> name ->
                   URLSearchParams.get other (URLSearchParams.set name value p)
                   = URLSearchParams.get other p).
  { unfold URLSearchParams.set.
    destruct (URLSearchParams.has name p) eqn:E.
    - apply set_first_spec, E.
    - apply append_spec, E. }
  destruct H as (Hget & Hcount & Hother).
  repeat split; try assumption.
  rewrite has_count, Hcount. reflexivity.
Qed.

(** ** Percentages on doubles *)

Lemma two_pos (e : Z) : (0 < 2 ^ e)%Q.
Proof. apply Qpower_0_lt. reflexivity. Qed.

Lemma two_plus (a b : Z) : (2 ^ (a + b) == 2 ^ a * 2 ^ b)%Q.
Proof. apply Qpower_plus. discriminate. Qed.

Lemma two_succ (a : Z) : (2 ^ (a + 1) == 2 * 2 ^ a)%Q.
Proof. rewrite two_plus. change (2 ^ 1)%Q with 2%Q. ring. Qed.

Lemma two_le (a b : Z) : a <= b -> (2 ^ a <= 2 ^ b)%Q.
Proof. intros H. apply Qpower_le_compat_l; [exact H|discriminate]. Qed.

Lemma two_lt_inv (a b : Z) : (2 ^ a < 2 ^ b)%Q -> a < b.
Proof. intros H. apply (Qpower_lt_compat_l_inv 2); [exact H|reflexivity]. Qed.

(** The logarithm of a positive integer, read in the rationals. *)
Lemma log2_bounds (n : Z) :
  0 < n ->
  (2 ^ Z.log2 n <= inject_Z n /\ inject_Z n < 2 * 2 ^ Z.log2 n)%Q.
Proof.
  intros Hn. destruct (Z.log2_spec n Hn) as [Hlo Hhi].
  pose proof (Z.log2_nonneg n) as Hnn.
  split.
  - rewrite <- (Zpower_Qpower 2 (Z.log2 n) Hnn). rewrite <- Zle_Qle. exact Hlo.
  - rewrite <- two_succ.
    rewrite <- (Zpower_Qpower 2 (Z.log2 n + 1)) by lia.
    rewrite <- Zlt_Qlt. exact Hhi.
Qed.

(** The binade of a positive rational: [2^52 <= q / 2^e < 2^53]. *)
Lemma binade_bounds (q : Q) :
  (0 < q)%Q ->
  (2 ^ (Double.binade q + 52) <= q /\ q < 2 ^ (Double.binade q + 53))%Q.
Proof.
  intros Hq. destruct q as [n d]. unfold Double.binade. cbn [Qnum Qden].
  assert (Hn : 0 < n).
  { unfold Qlt in Hq. cbn in Hq. lia. }
  destruct (log2_bounds n Hn) as [HnA HnB].
  destruct (log2_bounds (Zpos d) eq_refl) as [HdA HdB].
  set (a := Z.log2 n) in *. set (b := Z.log2 (Zpos d)) in *.
  pose proof (two_pos a) as HA. pose proof (two_pos b) as HB.
  assert (HP : (2 ^ (a - b - 52 + 52) * 2 ^ b == 2 ^ a)%Q).
  { rewrite <- two_plus. replace (a - b - 52 + 52 + b) with a by lia. reflexivity. }
  pose proof (two_pos (a - b - 52 + 52)) as HPpos.
  assert (Hqd : ((n # d) * inject_Z (Zpos d) == inject_Z n)%Q).
  { rewrite (Qmake_Qdiv n d). field. discriminate. }
  set (q := (n # d)%Q) in *.
  set (P := (2 ^ (a - b - 52 + 52))%Q) in *.
  set (A := (2 ^ a)%Q) in *. set (B := (2 ^ b)%Q) in *.
  set (N := inject_Z n) in *. set (D := inject_Z (Zpos d)) in *.
  assert (Hup : (q < 2 * P)%Q).
  { apply (Qmult_lt_r _ _ B HB).
    apply Qle_lt_trans with (q * D)%Q.
    - apply Qmult_le_l; [exact Hq|exact HdA].
    - rewrite Hqd. setoid_replace (2 * P * B)%Q with (2 * (P * B))%Q by ring.
      rewrite HP. exact HnB. }
  assert (Hlow : (P < 2 * q)%Q).
  { apply (Qmult_lt_r _ _ B HB).
    rewrite HP. apply Qle_lt_trans with (q * D)%Q.
    - rewrite Hqd. exact HnA.
    - setoid_replace (2 * q * B)%Q with (q * (2 * B))%Q by ring.
      apply Qmult_lt_l; [exact Hq|exact HdB]. }
  destruct (Qle_bool P q) eqn:E.
  - apply Qle_bool_iff in E. split; [exact E|].
    replace (a - b - 52 + 53) with (a - b - 52 + 52 + 1) by lia.
    rewrite two_succ. exact Hup.
  - assert (Hlt : (q < P)%Q).
    { apply Qnot_le_lt. intros H. apply Qle_bool_iff in H. congruence. }
    replace (a - b - 52 - 1 + 53) with (a - b - 52 + 52) by lia.
    split; [|exact Hlt].
    pose proof (two_succ (a - b - 52 - 1 + 52)) as Hs.
    replace (a - b - 52 - 1 + 52 + 1) with (a - b - 52 + 52) in Hs by lia.
    fold P in Hs. lra.
Qed.

(** The nearest integer is within a half. *)
Lemma nearest_even_error (y : Q) :
  (y - (1 # 2) <= inject_Z (Double.nearest_even y)
   /\ inject_Z (Double.nearest_even y) <= y + (1 # 2))%Q.
Proof.
  unfold Double.nearest_even.
  pose proof (Qfloor_le y) as Hlo. pose proof (Qlt_floor y) as Hhi.
  rewrite inject_Z_plus in Hhi. change (inject_Z 1) with 1%Q in Hhi.
  destruct (Qcompare_spec (y - inject_Z (Qfloor y)) (1 # 2)) as [He|Hl|Hg].
  - destruct (Z.even (Qfloor y));
      rewrite ?inject_Z_plus; change (inject_Z 1) with 1%Q; lra.
  - lra.
  - rewrite inject_Z_plus. change (inject_Z 1) with 1%Q. lra.
Qed.

Lemma nearest_even_nonneg (y : Q) : (0 <= y)%Q -> 0 <= Double.nearest_even y.
Proof.
  intros Hy. unfold Double.nearest_even.
  assert (Hf : 0 <= Qfloor y).
  { change 0 with (Qfloor 0). apply Qfloor_resp_le. exact Hy. }
  destruct (_ ?= _)%Q; [destruct (Z.even _)| |]; lia.
Qed.

Lemma two_52 : (2 ^ 52 == 4503599627370496)%Q.
Proof. vm_compute. reflexivity. Qed.

(** One rounding, away from the subnormal numbers and from overflow:
    the result is a number within the relative error [2^-53]. *)
Lemma round_pos_error (q : Q) :
  (2 ^ (-1022) <= q)%Q -> (q < 2 ^ 1023)%Q ->
  exists v : Q,
    Double.round_pos q = JsNum.Num v
    /\ (q * (1 - Double.u) <= v /\ v <= q * (1 + Double.u))%Q.
Proof.
  intros Hlo Hhi.
  assert (Hq : (0 < q)%Q) by (apply Qlt_le_trans with (2 ^ (-1022))%Q; [apply two_pos|exact Hlo]).
  destruct (binade_bounds q Hq) as [Hb52 Hb53].
  set (b := Double.binade q) in *.
  assert (Hbl : -1074 <= b).
  { assert (H : -1022 < b + 53)
      by (apply two_lt_inv, Qle_lt_trans with q; assumption).
    lia. }
  assert (Hbh : b < 971).
  { assert (H : b + 52 < 1023)
      by (apply two_lt_inv, Qle_lt_trans with q; assumption).
    lia. }
  unfold Double.round_pos, Double.ulp_exponent. fold b.
  rewrite (Z.max_l b (-1074)) by lia.
  destruct (Z.ltb_spec 971 b) as [|_]; [lia|].
  destruct (Z.eqb_spec b 971) as [|_]; [lia|]. cbn [orb andb].
  eexists. split; [reflexivity|].
  pose proof (two_pos b) as HP.
  destruct (nearest_even_error (q / 2 ^ b)) as [Hml Hmh].
  set (M := inject_Z (Double.nearest_even (q / 2 ^ b))) in *.
  rewrite two_plus, two_52 in Hb52.
  set (P := (2 ^ b)%Q) in *.
  assert (HPn : ~ (P == 0)%Q) by (intros H; rewrite H in HP; discriminate).
  assert (H1 : (q - P * (1 # 2) <= M * P)%Q).
  { setoid_replace (q - P * (1 # 2))%Q with ((q / P - (1 # 2)) * P)%Q
      by (field; exact HPn).
    apply Qmult_le_compat_r; [exact Hml|apply Qlt_le_weak, HP]. }
  assert (H2 : (M * P <= q + P * (1 # 2))%Q).
  { setoid_replace (q + P * (1 # 2))%Q with ((q / P + (1 # 2)) * P)%Q
      by (field; exact HPn).
    apply Qmult_le_compat_r; [exact Hmh|apply Qlt_le_weak, HP]. }
  unfold Double.u. set (V := (M * P)%Q) in *. clearbody V. split; lra.
Qed.

Lemma round_pos_nonneg (q : Q) :
  (0 < q)%Q ->
  match Double.round_pos q with
  | JsNum.Num v => (0 <= v)%Q
  | JsNum.PosInf => True
  | _ => False
  end.
Proof.
  intros Hq. unfold Double.round_pos.
  destruct (_ || _); [exact I|].
  apply Qmult_le_0_compat; [|apply Qlt_le_weak, two_pos].
  change 0%Q with (inject_Z 0). rewrite <- Zle_Qle.
  apply nearest_even_nonneg. apply Qlt_le_weak.
  apply Qlt_shift_div_l; [apply two_pos|]. rewrite Qmult_0_l. exact Hq.
Qed.

Lemma round_positive (q : Q) : (0 < q)%Q -> Double.round q = Double.round_pos q.
Proof.
  intros Hq. unfold Double.round.
  apply Qgt_alt in Hq. rewrite Hq. reflexivity.
Qed.

Lemma nearest_even_int (y : Q) (k : Z) :
  (y == inject_Z k)%Q -> Double.nearest_even y = k.
Proof.
  intros Hy. unfold Double.nearest_even.
  assert (Hf : Qfloor y = k) by (rewrite (Qfloor_comp _ _ Hy); apply Qfloor_Z).
  rewrite Hf.
  destruct (Qcompare_spec (y - inject_Z k) (1 # 2)) as [H|H|H];
    [exfalso; lra|reflexivity|exfalso; lra].
Qed.

(** A non-negative integer below [2^53] is a double: reading it rounds
    nothing away. *)
Lemma of_int_exact (z : Z) :
  0 <= z < 2 ^ 53 ->
  exists v : Q, Double.of_int z = JsNum.Num v /\ (v == inject_Z z)%Q.
Proof.
  intros [Hz0 Hz53]. unfold Double.of_int.
  destruct (Z.eq_dec z 0) as [->|Hne].
  - exists 0%Q. split; reflexivity.
  - assert (Hq : (0 < inject_Z z)%Q).
    { change 0%Q with (inject_Z 0). rewrite <- Zlt_Qlt. lia. }
    rewrite (round_positive _ Hq).
    destruct (binade_bounds _ Hq) as [Hb52 Hb53].
    set (b := Double.binade (inject_Z z)) in *.
    assert (Hbh : b <= 0).
    { assert (H : b + 52 < 53).
      { apply two_lt_inv, Qle_lt_trans with (inject_Z z); [exact Hb52|].
        rewrite <- (Zpower_Qpower 2 53) by lia. rewrite <- Zlt_Qlt. exact Hz53. }
      lia. }
    assert (Hbl : -53 < b).
    { assert (H : 0 < b + 53).
      { apply two_lt_inv, Qle_lt_trans with (inject_Z z); [|exact Hb53].
        change (2 ^ 0)%Q with (inject_Z 1). rewrite <- Zle_Qle. lia. }
      lia. }
    unfold Double.round_pos, Double.ulp_exponent. fold b.
    rewrite (Z.max_l b (-1074)) by lia.
    destruct (Z.ltb_spec 971 b) as [|_]; [lia|].
    destruct (Z.eqb_spec b 971) as [|_]; [lia|]. cbn [orb andb].
    eexists. split; [reflexivity|].
    pose proof (two_pos b) as HP.
    assert (HPn : ~ (2 ^ b == 0)%Q) by (intros H; rewrite H in HP; discriminate).
    assert (Hy : (inject_Z z / 2 ^ b == inject_Z (z * 2 ^ (- b)))%Q).
    { rewrite inject_Z_mult, (Zpower_Qpower 2 (- b)) by lia.
      change (inject_Z 2) with 2%Q. rewrite Qpower_opp. field. exact HPn. }
    rewrite (nearest_even_int _ _ Hy), <- Hy. field. exact HPn.
Qed.

Lemma of_int_nonpositive (z : Z) :
  z <= 0 -> JsNum.lt (Double.of_int 0) (Double.of_int z) = false.
Proof.
  intros Hz. change (Double.of_int 0) with (JsNum.Num 0).
  unfold Double.of_int, Double.round.
  destruct (Qcompare_spec (inject_Z z) 0) as [_|Hlt|Hgt].
  - reflexivity.
  - assert (Hpos : (0 < - inject_Z z)%Q) by lra.
    pose proof (round_pos_nonneg _ Hpos) as Hr.
    destruct (Double.round_pos (- inject_Z z)) as [v| | |]; try contradiction.
    + cbn [JsNum.negate JsNum.lt].
      destruct (Qcompare_spec 0 (- v)) as [_|H|_]; [reflexivity| |reflexivity].
      exfalso. lra.
    + reflexivity.
  - exfalso. change 0%Q with (inject_Z 0) in Hgt. rewrite <- Zlt_Qlt in Hgt. lia.
Qed.

Lemma inject_Z_bounds (z : Z) :
  0 < z < 2 ^ 53 -> (1 <= inject_Z z /\ inject_Z z <= 9007199254740992)%Q.
Proof.
  intros [H0 H53]. split.
  - change 1%Q with (inject_Z 1). rewrite <- Zle_Qle. lia.
  - change 9007199254740992%Q with (inject_Z (2 ^ 53)). rewrite <- Zle_Qle. lia.
Qed.

Lemma normal_range (q : Q) :
  (Double.u * (1 # 2) <= q)%Q -> (q <= 9007199254740992 * 200)%Q ->
  (2 ^ (-1022) <= q /\ q < 2 ^ 1023)%Q.
Proof.
  intros Hlo Hhi. split.
  - apply Qle_trans with (Double.u * (1 # 2))%Q; [|exact Hlo].
    apply Qle_bool_iff. vm_compute. reflexivity.
  - apply Qle_lt_trans with (9007199254740992 * 200)%Q; [exact Hhi|].
    apply Qlt_alt. vm_compute. reflexivity.
Qed.

(** The percentage of a positive count in a positive total, both below
    [2^53]: a finite number within the relative error [2^-51] of the
    exact quotient. *)
Lemma double_pct_positive (count total : Z) :
  0 < total < 2 ^ 53 -> 0 < count < 2 ^ 53 ->
  exists q : Q,
    Double.pct count total = JsNum.Num q
    /\ (inject_Z 100 * inject_Z count / inject_Z total * (1 - Double.eps) <= q
        /\ q <= inject_Z 100 * inject_Z count / inject_Z total * (1 + Double.eps))%Q.
Proof.
  intros Ht Hc.
  destruct (of_int_exact total ltac:(lia)) as (t & Het & Hteq).
  destruct (of_int_exact count ltac:(lia)) as (c & Hec & Hceq).
  destruct (of_int_exact 100 ltac:(lia)) as (h & Heh & Hheq).
  destruct (inject_Z_bounds total Ht) as [Ht1 Ht2].
  destruct (inject_Z_bounds count Hc) as [Hc1 Hc2].
  change (inject_Z 100) with 100%Q in *.
  set (T := inject_Z total) in *. set (C := inject_Z count) in *.
  assert (HTn : ~ (T == 0)%Q) by (intros H; rewrite H in Ht1; lra).
  assert (Htn : ~ (t == 0)%Q) by (rewrite Hteq; exact HTn).
  unfold Double.pct. rewrite Het, Hec, Heh.
  change (Double.of_int 0) with (JsNum.Num 0).
  assert (Hlt : JsNum.lt (JsNum.Num 0) (JsNum.Num t) = true).
  { cbn [JsNum.lt]. destruct (Qcompare_spec 0 t) as [H|H|H];
      [exfalso; lra|reflexivity|exfalso; lra]. }
  rewrite Hlt.
  assert (Hsign : JsNum.sign t = Gt).
  { unfold JsNum.sign. apply Qgt_alt. lra. }
  unfold Double.div, JsNum.div. rewrite Hsign. cbn [Double.round_result].
  (* the quotient *)
  set (x := (C / T)%Q).
  assert (Hx : (c / t == x)%Q) by (unfold x; rewrite Hceq, Hteq; reflexivity).
  assert (Hxlo : (Double.u <= x)%Q).
  { unfold x. apply Qle_shift_div_l; [lra|]. unfold Double.u. lra. }
  assert (Hxhi : (x <= 9007199254740992)%Q).
  { unfold x. apply Qle_shift_div_r; lra. }
  assert (Hxpos : (0 < c / t)%Q) by (rewrite Hx; unfold Double.u in Hxlo; lra).
  rewrite (round_positive _ Hxpos).
  destruct (round_pos_error (c / t)) as (v1 & Hv1 & Hv1lo & Hv1hi).
  { rewrite Hx. apply normal_range; unfold Double.u in *; lra. }
  { rewrite Hx. apply normal_range; unfold Double.u in *; lra. }
  rewrite Hv1. cbn [JsNum.mul Double.mul Double.round_result].
  rewrite Hx in Hv1lo, Hv1hi.
  assert (Hw : (v1 * h == v1 * 100)%Q) by (rewrite Hheq; reflexivity).
  assert (Hwpos : (0 < v1 * h)%Q) by (rewrite Hw; unfold Double.u in *; lra).
  rewrite (round_positive _ Hwpos).
  destruct (round_pos_error (v1 * h)) as (v2 & Hv2 & Hv2lo & Hv2hi).
  { rewrite Hw. apply normal_range; unfold Double.u in *; lra. }
  { rewrite Hw. apply normal_range; unfold Double.u in *; lra. }
  rewrite Hw in Hv2lo, Hv2hi.
  exists v2. split; [exact Hv2|].
  setoid_replace (100 * C / T)%Q with (100 * x)%Q by (unfold x; field; exact HTn).
  unfold Double.u, Double.eps in *. clearbody x. clear Hx Hxpos. split; lra.
Qed.

(** A count of 0 in a positive total below [2^53]: the percentage is 0,
    and the divisor is a number other than 0. *)
Lemma double_pct_zero (total : Z) :
  0 < total < 2 ^ 53 ->
  Double.pct 0 total = JsNum.Num 0
  /\ exists t : Q, Double.of_int total = JsNum.Num t /\ ~ (t == 0)%Q.
Proof.
  intros Ht.
  destruct (of_int_exact total ltac:(lia)) as (t & Het & Hteq).
  destruct (inject_Z_bounds total Ht) as [Ht1 _].
  assert (Htn : ~ (t == 0)%Q) by (rewrite Hteq; intros H; rewrite H in Ht1; lra).
  split; [|exists t; split; assumption].
  unfold Double.pct. rewrite Het.
  change (Double.of_int 0) with (JsNum.Num 0).
  assert (Hlt : JsNum.lt (JsNum.Num 0) (JsNum.Num t) = true).
  { cbn [JsNum.lt]. destruct (Qcompare_spec 0 t) as [H|H|H];
      [exfalso; lra|reflexivity|exfalso; lra]. }
  rewrite Hlt.
  assert (Hsign : JsNum.sign t = Gt) by (unfold JsNum.sign; apply Qgt_alt; lra).
  unfold Double.div, JsNum.div. rewrite Hsign. cbn [Double.round_result].
  assert (Hz : Double.round (0 / t) = JsNum.Num 0).
  { unfold Double.round.
    assert (H0 : (0 / t ?= 0)%Q = Eq) by (apply Qeq_alt; field; exact Htn).
    rewrite H0. reflexivity. }
  rewrite Hz. reflexivity.
Qed.

(** C6, as stated, fails: for 7 agents out of 100 the pages compute
    [(7 / 100) * 100] in doubles and get 7.000000000000001, the double
    next above 7, not [100 * 7 / 100]. *)
Lemma pct_not_exact :
  JsNum.same (Double.pct 7 100) (JsNum.Num (7 + (1 # 1125899906842624)))
  /\ ~ JsNum.same (Double.pct 7 100)
         (JsNum.Num (inject_Z 100 * inject_Z 7 / inject_Z 100)).
Proof.
  split.
  - vm_compute. reflexivity.
  - vm_compute. discriminate.
Qed.

(** C6, amended: the percentage is [(count / total) * 100] computed in
    doubles.  When the total is 0 or less the percentage is 0 and
    nothing is divided, whatever the count.  When the total is positive
    the divisor is a number other than 0, and for a count and a total
    below [2^53] the percentage is a finite number that agrees with
    [100 * count / total] up to the rounding of the division and of the
    multiplication, a relative error of at most [2^-51]. *)
Theorem pct_up_to_rounding (count total : Z) :
  (total <= 0 -> Double.pct count total = JsNum.Num 0)
  /\ (0 < total < 2 ^ 53 -> 0 <= count < 2 ^ 53 ->
      exists t q : Q,
        Double.of_int total = JsNum.Num t /\ ~ (t == 0)%Q
        /\ Double.pct count total = JsNum.Num q
        /\ (inject_Z 100 * inject_Z count / inject_Z total * (1 - Double.eps) <= q
            /\ q <= inject_Z 100 * inject_Z count / inject_Z total
                    * (1 + Double.eps))%Q).
Proof.
  split.
  - intros Hle. unfold Double.pct. rewrite (of_int_nonpositive total Hle).
    reflexivity.
  - intros Ht Hc.
    destruct (double_pct_zero total Ht) as (Hp & t & Het & Htn).
    destruct (Z.eq_dec count 0) as [->|Hne].
    + exists t, 0%Q. split; [exact Het|]. split; [exact Htn|].
      split; [exact Hp|].
      destruct (inject_Z_bounds total Ht) as [Ht1 _].
      change (inject_Z 0) with 0%Q.
      assert (He : (inject_Z 100 * 0 / inject_Z total == 0)%Q).
      { field. intros H. rewrite H in Ht1. lra. }
      rewrite He. unfold Double.eps. split; lra.
    + destruct (double_pct_positive count total Ht ltac:(lia)) as (q & Hq & Hb).
      exists t, q. repeat split; try assumption; apply Hb.
Qed.

Lemma pct_up_to_rounding_witness :
  Double.pct 7 0 = JsNum.Num 0
  /\ exists t q : Q,
      Double.of_int 100 = JsNum.Num t /\ ~ (t == 0)%Q
      /\ Double.pct 7 100 = JsNum.Num q
      /\ (inject_Z 100 * inject_Z 7 / inject_Z 100 * (1 - Double.eps) <= q
          /\ q <= inject_Z 100 * inject_Z 7 / inject_Z 100 * (1 + Double.eps))%Q.
Proof.
  split.
  - apply (proj1 (pct_up_to_rounding 7 0)). lia.
  - apply (proj2 (pct_up_to_rounding 7 100)); lia.
Defined.

(** The test [pct === 0] of the renderers gives the same answer on
    exact rationals and on doubles, for counts and totals below [2^53]. *)
Lemma double_zero_test (count total : Z) :
  0 < total < 2 ^ 53 -> 0 <= count < 2 ^ 53 ->
  JsNum.strict_eq (Double.pct count total) (JsNum.Num 0)
  = JsNum.strict_eq (pct count total) (JsNum.of_Z 0).
Proof.
  intros Ht Hc. rewrite (pct_zero_iff count total) by lia.
  destruct (Z.eqb_spec count 0) as [->|Hne].
  - rewrite (proj1 (double_pct_zero total Ht)). reflexivity.
  - destruct (double_pct_positive count total Ht ltac:(lia)) as (q & Hq & Hlo & _).
    rewrite Hq. cbn [JsNum.strict_eq].
    destruct (Qeq_bool q 0) eqn:E; [|reflexivity].
    apply Qeq_bool_iff in E. exfalso.
    destruct (inject_Z_bounds total Ht) as [Ht1 Ht2].
    destruct (inject_Z_bounds count ltac:(lia)) as [Hc1 Hc2].
    assert (Hx : (0 < inject_Z 100 * inject_Z count / inject_Z total)%Q).
    { apply Qlt_shift_div_l; [lra|]. change (inject_Z 100) with 100%Q. lra. }
    unfold Double.eps in *.
    set (X := (inject_Z 100 * inject_Z count / inject_Z total)%Q) in *.
    clearbody X. lra.
Qed.

(** Percentages as the pages print them: the rounding of the division
    shows in the text for 9 of 2000, and not for a third. *)
Example printed_percentages :
  Double.pct_text 9 2000 = "0.4"
  /\ Double.pct_text 7 2000 = "0.4"
  /\ Double.pct_text 1 3 = "33.3"
  /\ Double.pct_text 25 10 = "250.0"
  /\ Double.pct_text 4 0 = "0"
  /\ JsNum.toFixed1 (Double.pct 7 100) = "7.0".
Proof. vm_compute. repeat split. Qed.
